(** * U-FRETS crawler: the crawl / dedupe / merge pipeline of [main.py]

    A shallow embedding of [UfretCrawler] (src/main.py) and the proofs of
    the properties its specification states.

    Conventions of the embedding:
    - a Python [str] is the list of its code points ([pystr]);
    - a Python [dict] is an association list in insertion order ([pydict]):
      [list(d.values())] and the dict comprehension both depend on it;
    - the crawler object and the data directory are passed explicitly;
    - the network, the HTML parser and the Unicode tables are inputs. *)

From Stdlib Require Import NArith Ascii String.
From stdpp Require Import gmap list sorting.

Set Default Proof Using "Type".

(** ** Python strings *)

Abbreviation pystr := (list N).

(** An ASCII literal as a Python string. *)
Definition py (s : string) : pystr :=
  N_of_ascii <$> list_ascii_of_string s.

(** [str.isspace] for one code point (CPython's [_PyUnicode_IsWhitespace]). *)
Definition is_space (c : N) : bool :=
  ((9 <=? c) && (c <=? 13) || (28 <=? c) && (c <=? 32)
   || (c =? 133) || (c =? 160) || (c =? 5760)
   || (8192 <=? c) && (c <=? 8202)
   || (c =? 8232) || (c =? 8233) || (c =? 8239) || (c =? 8287)
   || (c =? 12288))%N.

(** [s.lstrip(chars)] with the set of characters given as a predicate. *)
Fixpoint lstrip_by (p : N → bool) (s : pystr) : pystr :=
  match s with
  | [] => []
  | c :: r => if p c then lstrip_by p r else s
  end.

Definition rstrip_by (p : N → bool) (s : pystr) : pystr :=
  reverse (lstrip_by p (reverse s)).

(** [s.strip()] *)
Definition strip (s : pystr) : pystr := rstrip_by is_space (lstrip_by is_space s).

(** [s.lstrip("-")] *)
Definition lstrip_hyphen (s : pystr) : pystr := lstrip_by (N.eqb 45) s.

(** [s.startswith(p)] *)
Fixpoint startswith (p s : pystr) : bool :=
  match p, s with
  | [], _ => true
  | _ :: _, [] => false
  | a :: p', b :: s' => (a =? b)%N && startswith p' s'
  end.

(** [sub in s] *)
Fixpoint contains (sub s : pystr) : bool :=
  startswith sub s ||
  match s with
  | [] => false
  | _ :: r => contains sub r
  end.

(** [sep.join(parts)] *)
Fixpoint join (sep : pystr) (parts : list pystr) : pystr :=
  match parts with
  | [] => []
  | [p] => p
  | p :: rest => p ++ sep ++ join sep rest
  end.

(** [s.split(sep)] for a non-empty separator: leftmost, non-overlapping.
    [skip] counts the characters of a separator still to be consumed and
    [cur] holds the current field reversed. *)
Fixpoint split_go (sep : pystr) (skip : nat) (cur : pystr) (s : pystr)
  : list pystr :=
  match s with
  | [] => [reverse cur]
  | c :: r =>
      match skip with
      | S k => split_go sep k cur r
      | O =>
          if startswith sep s
          then reverse cur :: split_go sep (length sep - 1) [] r
          else split_go sep 0 (c :: cur) r
      end
  end.

Definition split (sep s : pystr) : list pystr := split_go sep 0 [] s.

(** ** Song records *)

Record song := Song {
  title : pystr;
  artist : pystr;
  url : pystr;
  tags : list pystr;
  is_piano : bool;
  is_video : bool;
  discovered_at : pystr
}.

#[global] Instance song_eq_dec : EqDecision song.
Proof. solve_decision. Defined.

(** The key of line 105: [(s["title"], s["artist"])]. *)
Definition song_key (s : song) : pystr * pystr := (title s, artist s).

(** ** [deduplicate_songs] (lines 100-109) *)

(** One turn of the [for s in songs] loop on the pair [(seen, unique)]. *)
Definition dedup_step (acc : gset (pystr * pystr) * list song) (s : song)
  : gset (pystr * pystr) * list song :=
  let key := song_key s in
  if decide (key ∈ acc.1)
  then acc
  else ({[ key ]} ∪ acc.1, acc.2 ++ [s]).

Definition deduplicate_songs (songs : list song) : list song :=
  (foldl dedup_step (∅, []) songs).2.

(** The specification's wording of the result: going through the positions
    of the input in increasing order, the record at position [i] is kept
    exactly when no earlier position holds a record with the same key. *)
Definition first_occurrences (xs : list song) : list song :=
  omap (λ i, x ← xs !! i;
             if decide (song_key x ∈ song_key <$> take i xs)
             then None else Some x)
       (seq 0 (length xs)).


(** The loop as a recursive function of the [seen] set reached so far, and
    [first_occurrences] for the part of the input that follows [pre]: the
    forms the proofs go through. *)
Fixpoint dedup_from (seen : gset (pystr * pystr)) (xs : list song) : list song :=
  match xs with
  | [] => []
  | x :: r =>
      if decide (song_key x ∈ seen) then dedup_from seen r
      else x :: dedup_from ({[ song_key x ]} ∪ seen) r
  end.

Definition keys_of (xs : list song) : gset (pystr * pystr) :=
  list_to_set (song_key <$> xs).

Definition first_occurrences_after (pre xs : list song) : list song :=
  omap (λ i, x ← (pre ++ xs) !! i;
             if decide (song_key x ∈ song_key <$> take i (pre ++ xs))
             then None else Some x)
       (seq (length pre) (length xs)).

(** ** Python dictionaries

    CPython dictionaries keep insertion order; [list(d.values())] at lines
    144 and 149 and the comprehensions at lines 146 and 151 rely on it.
    A dictionary is the list of its items in insertion order; its keys are
    pairwise distinct ([dict_wf]). *)

Abbreviation pydict := (list (pystr * song)).

Definition dict_wf (d : pydict) : Prop := NoDup d.*1.

(** [d.get(k)] *)
Fixpoint dict_get (k : pystr) (d : pydict) : option song :=
  match d with
  | [] => None
  | (k', v) :: r => if decide (k = k') then Some v else dict_get k r
  end.

(** [k in d] *)
Definition dict_mem (k : pystr) (d : pydict) : bool :=
  bool_decide (is_Some (dict_get k d)).

(** [d[k] = v]: an existing key keeps its place, a new key goes last. *)
Fixpoint dict_set (k : pystr) (v : song) (d : pydict) : pydict :=
  match d with
  | [] => [(k, v)]
  | (k', v') :: r =>
      if decide (k = k') then (k, v) :: r else (k', v') :: dict_set k v r
  end.

(** [list(d.values())] *)
Definition dict_values (d : pydict) : list song := d.*2.

(** [{**a, **b}] *)
Definition dict_update (a b : pydict) : pydict :=
  foldl (λ d kv, dict_set kv.1 kv.2 d) a b.

(** [{s["url"]: s for s in songs}] *)
Definition dict_of_songs (songs : list song) : pydict :=
  foldl (λ d s, dict_set (url s) s d) [] songs.

(** The dictionary comprehension as a loop from any dictionary. *)
Definition dict_add_songs (d : pydict) (songs : list song) : pydict :=
  foldl (λ d s, dict_set (url s) s d) d songs.

(** The last record of a list with a given URL: the one a comprehension or
    a run of [d[s["url"]] = s] leaves under that URL. *)
Definition last_with_url (u : pystr) (l : list song) : option song :=
  last (List.filter (λ r, bool_decide (url r = u)) l).

(** ** The crawler object and the data directory *)

Record crawler := Crawler {
  followed_artists : list pystr;
  favorite_urls : list pystr;
  db_general : pydict;
  db_video : pydict;
  db_perm : pydict
}.

(** The five files under [DATA_DIR]. A text file is the list of its lines
    (without the line terminators), a JSON file the dictionary it decodes
    to; [None] is a file that is missing or cannot be read. *)
Record data_dir := DataDir {
  ARTISTS_FILE : option (list pystr);
  FAVORITES_FILE : option (list pystr);
  DB_GENERAL : option pydict;
  DB_VIDEO : option pydict;
  DB_PERMANENT : option pydict
}.

(** What one call gets from outside: the date of
    [datetime.datetime.now().strftime("%Y-%m-%d")] and whether the files can
    be opened for writing ([save_txt] and [save_json] catch the exception
    and return [False]; the file is then taken to be as it was). *)
Record env := Env {
  env_today : pystr;
  env_writable : bool
}.

(** [load_txt] (lines 40-44) *)
Definition load_txt (f : option (list pystr)) : list pystr :=
  match f with
  | None => []
  | Some lines =>
      strip <$> List.filter
        (λ l, negb (bool_decide (strip l = [])) && negb (startswith (py "#") l))
        lines
  end.

(** [save_txt] (lines 46-51): ["\n".join(d)+"\n"], one line per entry (the
    entries hold no line break); an empty list leaves one empty line. *)
Definition save_txt (e : env) (d : list pystr) (old : option (list pystr))
  : option (list pystr) :=
  if env_writable e
  then Some (match d with [] => [[]] | _ => d end)
  else old.

(** [load_json] (lines 53-57) *)
Definition load_json (f : option pydict) : pydict := default [] f.

(** [save_json] (lines 59-63) *)
Definition save_json (e : env) (d : pydict) (old : option pydict)
  : option pydict :=
  if env_writable e then Some d else old.

(** [__init__] (lines 30-38) *)
Definition init (fs : data_dir) : crawler :=
  {| followed_artists := load_txt (ARTISTS_FILE fs);
     favorite_urls := load_txt (FAVORITES_FILE fs);
     db_general := load_json (DB_GENERAL fs);
     db_video := load_json (DB_VIDEO fs);
     db_perm := load_json (DB_PERMANENT fs) |}.

(** ** String constants of the source, as code points *)

Definition NEW_URL : pystr := py "https://www.ufret.jp/new.php".
Definition sep3 : pystr := py "|||".
Definition s_Unknown : pystr := py "Unknown".
Definition s_Unknown_Song : pystr := py "Unknown Song".
Definition s_hyphen : pystr := py "-".
Definition s_NEW : pystr := py "NEW".
Definition s_added : pystr := [36861; 21152]%N.                      (* 追加 *)
Definition s_request : pystr := [85; 45; 12522; 12463]%N.            (* U-リク *)
Definition s_beginner : pystr := [21021; 24515; 32773]%N.            (* 初心者 *)
Definition s_video_plus : pystr := [21205; 30011; 12503; 12521; 12473]%N. (* 動画プラス *)
Definition s_piano_solo : pystr := [12500; 12450; 12494; 12477; 12525]%N. (* ピアノソロ *)
Definition s_solo : pystr := [12477; 12525]%N.                       (* ソロ *)
Definition s_elementary : pystr := [21021; 32026]%N.                 (* 初級 *)
Definition s_piano : pystr := [12500; 12450; 12494]%N.               (* ピアノ *)
Definition s_video : pystr := [21205; 30011]%N.                      (* 動画 *)

(** ** The network *)

(** What [client.get] does with one request: it raises (no connection, no
    answer within the 12 seconds) or it answers with a status and a body. *)
Inductive outcome :=
  | Raised
  | Answered (status : N) (text : pystr).

(** [fetch_page] (lines 65-72): [raise_for_status] raises unless the status
    is 2xx, and every exception ends in [return None]. *)
Definition fetch_page (o : outcome) : option pystr :=
  match o with
  | Raised => None
  | Answered status text =>
      if ((200 <=? status) && (status <? 300))%N then Some text else None
  end.

(** [not html] on the result of [fetch_page] (lines 120 and 160): [None]
    and the empty string are both false values. *)
Definition not_html (html : option pystr) : bool :=
  match html with
  | None | Some [] => true
  | Some (_ :: _) => false
  end.

(** ** What the HTML parser hands to the crawler *)

(** The [a] element of a listing item: its [href] attribute, if any, and
    its text nodes in document order. *)
Record anchor := Anchor {
  a_href : option pystr;
  a_strings : list pystr
}.

(** One element of [soup.select("div.list-group a.list-group-item")] as
    [parse_song_item] looks at it:
    - [item_link]: [item if item.name == "a" else item.find("a")];
    - [item_badges]: [t.text] for [t] in [item.select("span.badge")];
    - [item_artist]: [get_text()] of the first [span] whose style holds
      [font-size:12px] or [font-size: 12px], if there is one. *)
Record item := Item {
  item_link : option anchor;
  item_badges : list pystr;
  item_artist : option pystr
}.

(** The [h1] of a detail page as [add_url_manually] looks at it: the text
    of its bold [span], its first own text node, the text of its first
    [span] with a [font-size] style. *)
Record heading := Heading {
  h1_bold : option pystr;
  h1_own_string : option pystr;
  h1_sized : option pystr
}.

Record detail_page := DetailPage {
  page_h1 : option heading;
  page_badges : list pystr
}.

(** The result of [get_data_for_ui]. *)
Record ui_data := UiData {
  ui_general : list song;
  ui_video : list song;
  ui_piano : list song;
  ui_followed : list song;
  ui_favorites : list song
}.

(** [a < b] on strings: lexicographic on code points. *)
Fixpoint str_lt (a b : pystr) : bool :=
  match a, b with
  | _, [] => false
  | [], _ :: _ => true
  | x :: a', y :: b' => (x <? y)%N || (x =? y)%N && str_lt a' b'
  end.

(** [sorted(l, key=lambda x: x.get("artist", ""))]: stable, ascending. *)
Fixpoint insert_by_artist (x : song) (l : list song) : list song :=
  match l with
  | [] => [x]
  | y :: r =>
      if str_lt (artist y) (artist x) then y :: insert_by_artist x r
      else x :: l
  end.

Definition sorted_by_artist (l : list song) : list song :=
  foldr insert_by_artist [] l.

Section Crawler.

(** The Unicode tables and [urllib.parse.urljoin] are not part of the
    program: [is_decimal] is the class [\d] of a [str] pattern, [str_lower]
    is [str.lower], and [urljoin] gives [None] where the call raises. *)
Variable is_decimal : N → bool.
Variable str_lower : pystr → pystr.
Variable urljoin : pystr → pystr → option pystr.

(** The HTML parser: [listing_items html] is
    [BeautifulSoup(html, "html.parser").select("div.list-group a.list-group-item")]
    (lines 121-122) and [detail_of html] is what lines 161-180 read from the
    parsed detail page. *)
Variable listing_items : pystr → list item.
Variable detail_of : pystr → detail_page.

(** *** [parse_song_item] (lines 74-98) *)

(** The alternatives of [clean_pattern] (line 90), in order. *)
Definition clean_literals : list pystr :=
  [s_request; s_NEW; s_added; s_beginner; s_video_plus; s_piano_solo;
   s_solo; s_elementary].

(** [\d{4}/\d{2}/\d{2}] at the head of [s]. *)
Definition date_at (s : pystr) : bool :=
  match s with
  | y1 :: y2 :: y3 :: y4 :: c1 :: m1 :: m2 :: c2 :: d1 :: d2 :: _ =>
      is_decimal y1 && is_decimal y2 && is_decimal y3 && is_decimal y4
      && (c1 =? 47)%N && is_decimal m1 && is_decimal m2
      && (c2 =? 47)%N && is_decimal d1 && is_decimal d2
  | _ => false
  end.

(** The length of the match of [clean_pattern] at the head of [s]: the first
    alternative that matches there. *)
Definition clean_match (s : pystr) : option nat :=
  match List.find (λ lit, startswith lit s) clean_literals with
  | Some lit => Some (length lit)
  | None => if date_at s then Some 10 else None
  end.

(** [re.sub(clean_pattern, "", s)]: the leftmost matches, none overlapping,
    are removed. [skip] counts the characters of a match still to drop. *)
Fixpoint re_sub_go (skip : nat) (s : pystr) : pystr :=
  match s with
  | [] => []
  | c :: r =>
      match skip with
      | S k => re_sub_go k r
      | O =>
          match clean_match s with
          | Some n => re_sub_go (n - 1) r
          | None => c :: re_sub_go 0 r
          end
      end
  end.

Definition re_sub_clean (s : pystr) : pystr := re_sub_go 0 s.

(** [link_tag.get_text("|||", strip=True)]: the stripped text nodes that are
    not empty, joined by the separator. *)
Definition get_text_sep (a : anchor) : pystr :=
  join sep3 (List.filter (λ t, negb (bool_decide (t = []))) (strip <$> a_strings a)).

(** Line 86. *)
Definition text_parts (full_text : pystr) : list pystr :=
  strip <$> List.filter (λ p, negb (bool_decide (strip p = []))) (split sep3 full_text).

(** Line 87. *)
Definition clean_parts_of (artist : pystr) (badges parts : list pystr)
  : list pystr :=
  List.filter
    (λ p, negb (bool_decide (p = artist))
          && negb (bool_decide (p ∈ badges))
          && negb (contains s_added p)
          && negb (contains s_NEW p)
          && negb (bool_decide (p = s_request))
          && negb (bool_decide (p = s_hyphen)))
    parts.

(** Lines 82-83. *)
Definition artist_of (it : item) : pystr :=
  let artist := match item_artist it with
                | Some t => strip t
                | None => s_Unknown
                end in
  if startswith s_hyphen artist then strip (drop 1 artist) else artist.

(** Lines 85-89: the candidate segments of the title. *)
Definition candidates_of (it : item) (link_tag : anchor) : list pystr :=
  clean_parts_of (artist_of it) (strip <$> item_badges it)
                 (text_parts (get_text_sep link_tag)).

(** Line 91. *)
Definition clean_title (raw_title : pystr) : pystr :=
  strip (lstrip_hyphen (strip (re_sub_clean raw_title))).

Definition parse_song_item (today : pystr) (it : item) (base_url : pystr)
  : option song :=
  match item_link it with
  | None => None
  | Some link_tag =>
      match urljoin base_url (default [] (a_href link_tag)) with
      | None => None
      | Some url =>
          let badges := strip <$> item_badges it in
          let artist := artist_of it in
          let clean_parts := candidates_of it link_tag in
          let raw_title := match clean_parts with
                           | p :: _ => p
                           | [] => s_Unknown
                           end in
          let title := clean_title raw_title in
          let title := if bool_decide (title = []) then s_Unknown_Song else title in
          Some {| title := title; artist := artist; url := url; tags := badges;
                  is_piano := existsb (contains s_piano) badges;
                  is_video := existsb (contains s_video) badges;
                  discovered_at := today |}
      end
  end.

(** *** [scrape_all] (lines 111-155) *)

(** Lines 139 and 199: [any(f.lower() in artist.lower() for f in followed)]. *)
Definition is_followed (followed : list pystr) (s : song) : bool :=
  existsb (λ f, contains (str_lower f) (str_lower (artist s))) followed.

(** One turn of the loop of lines 131-140 on [(new_gen, new_vid, db_perm)]. *)
Definition route_step (followed : list pystr)
    (acc : list song * list song * pydict) (s : song)
  : list song * list song * pydict :=
  let '(new_gen, new_vid, perm) := acc in
  if is_piano s then (new_gen, new_vid, dict_set (url s) s perm)
  else if is_video s then (new_gen, new_vid ++ [s], perm)
  else (new_gen ++ [s], new_vid,
        if is_followed followed s then dict_set (url s) s perm else perm).

Definition route (followed : list pystr) (scraped : list song) (perm : pydict)
  : list song * list song * pydict :=
  foldl (route_step followed) ([], [], perm) scraped.

(** Lines 129-154, the block under the lock: routing, the two merges and
    the three writes. *)
Definition scrape_merge (e : env) (scraped : list song)
    (self : crawler) (fs : data_dir) : crawler * data_dir :=
  let '(new_gen, new_vid, perm) :=
    route (followed_artists self) scraped (db_perm self) in
  let raw_gen := new_gen ++ dict_values (db_general self) in
  let updated_gen := deduplicate_songs raw_gen in
  let general := dict_of_songs (take 50 updated_gen) in
  let raw_vid := new_vid ++ dict_values (db_video self) in
  let updated_vid := deduplicate_songs raw_vid in
  let video := dict_of_songs (take 20 updated_vid) in
  ({| followed_artists := followed_artists self;
      favorite_urls := favorite_urls self;
      db_general := general;
      db_video := video;
      db_perm := perm |},
   {| ARTISTS_FILE := ARTISTS_FILE fs;
      FAVORITES_FILE := FAVORITES_FILE fs;
      DB_GENERAL := save_json e general (DB_GENERAL fs);
      DB_VIDEO := save_json e video (DB_VIDEO fs);
      DB_PERMANENT := save_json e perm (DB_PERMANENT fs) |}).

(** Lines 123-127: the first 100 items, each parsed on its own. *)
Definition parse_items (today : pystr) (items : list item) : list song :=
  omap (λ it, parse_song_item today it NEW_URL) (take 100 items).

Definition scrape_all (e : env) (o : outcome)
    (self : crawler) (fs : data_dir) : crawler * data_dir :=
  let c_followed := load_txt (ARTISTS_FILE fs) in
  let c_favs := load_txt (FAVORITES_FILE fs) in
  let self := {| followed_artists := c_followed;
                 favorite_urls := c_favs;
                 db_general := db_general self;
                 db_video := db_video self;
                 db_perm := db_perm self |} in
  let html := fetch_page o in
  if not_html html then (self, fs)
  else
    let items := listing_items (default [] html) in
    scrape_merge e (parse_items (env_today e) items) self fs.

(** *** [add_url_manually] (lines 157-191) *)

(** Lines 165-183: the record built from a detail page. *)
Definition manual_song (today url : pystr) (page : detail_page) : song :=
  let '(title, artist) :=
    match page_h1 page with
    | Some h1 =>
        (match h1_bold h1 with
         | Some t => strip t
         | None => strip (default [] (h1_own_string h1))
         end,
         match h1_sized h1 with
         | Some a => strip a
         | None => s_Unknown
         end)
    | None => (s_Unknown, s_Unknown)
    end in
  let badges := strip <$> page_badges page in
  {| title := title; artist := artist; url := url; tags := badges;
     is_piano := existsb (contains s_piano) badges;
     is_video := existsb (contains s_video) badges;
     discovered_at := today |}.

Definition add_url_manually (e : env) (o : outcome)
    (url : pystr) (self : crawler) (fs : data_dir) : crawler * data_dir :=
  let html := fetch_page o in
  if not_html html then (self, fs)
  else
    let song := manual_song (env_today e) url (detail_of (default [] html)) in
    let favs := favorite_urls self ++ [url] in
    let perm := if dict_mem url (db_perm self) then db_perm self
                else dict_set url song (db_perm self) in
    ({| followed_artists := followed_artists self;
        favorite_urls := favs;
        db_general := db_general self;
        db_video := db_video self;
        db_perm := perm |},
     {| ARTISTS_FILE := ARTISTS_FILE fs;
        FAVORITES_FILE := save_txt e favs (FAVORITES_FILE fs);
        DB_GENERAL := DB_GENERAL fs;
        DB_VIDEO := DB_VIDEO fs;
        DB_PERMANENT := save_json e perm (DB_PERMANENT fs) |}).

(** *** [get_data_for_ui] (lines 193-208) *)

(** Line 196: [{**self.db_general, **self.db_video, **self.db_perm}]. *)
Definition all_known (self : crawler) : pydict :=
  dict_update (dict_update (db_general self) (db_video self)) (db_perm self).

Definition get_data_for_ui (self : crawler) : ui_data :=
  let raw_piano := List.filter is_piano (dict_values (db_perm self)) in
  let raw_followed :=
    List.filter (is_followed (followed_artists self)) (dict_values (db_perm self)) in
  let raw_favorites :=
    List.filter (λ s, bool_decide (url s ∈ favorite_urls self))
                (dict_values (all_known self)) in
  {| ui_general := dict_values (db_general self);
     ui_video := dict_values (db_video self);
     ui_piano := deduplicate_songs raw_piano;
     ui_followed := sorted_by_artist (deduplicate_songs raw_followed);
     ui_favorites := deduplicate_songs raw_favorites |}.

(** *** The toggles (lines 610-630) and the page (lines 583-595) *)

(** [c.remove(x)]: the first occurrence goes. *)
Fixpoint list_remove_first (x : pystr) (c : list pystr) : list pystr :=
  match c with
  | [] => []
  | y :: r => if decide (x = y) then r else y :: list_remove_first x r
  end.

(** Lines 614-616 and 625-627. *)
Definition toggle (x : pystr) (c : list pystr) : list pystr :=
  if bool_decide (x ∈ c) then list_remove_first x c else c ++ [x].

Definition api_follow (e : env) (artist : pystr)
    (self : crawler) (fs : data_dir) : crawler * data_dir :=
  let c := toggle artist (load_txt (ARTISTS_FILE fs)) in
  ({| followed_artists := c;
      favorite_urls := favorite_urls self;
      db_general := db_general self;
      db_video := db_video self;
      db_perm := db_perm self |},
   {| ARTISTS_FILE := save_txt e c (ARTISTS_FILE fs);
      FAVORITES_FILE := FAVORITES_FILE fs;
      DB_GENERAL := DB_GENERAL fs;
      DB_VIDEO := DB_VIDEO fs;
      DB_PERMANENT := DB_PERMANENT fs |}).

Definition api_favorite (e : env) (url : pystr)
    (self : crawler) (fs : data_dir) : crawler * data_dir :=
  let c := toggle url (load_txt (FAVORITES_FILE fs)) in
  ({| followed_artists := followed_artists self;
      favorite_urls := c;
      db_general := db_general self;
      db_video := db_video self;
      db_perm := db_perm self |},
   {| ARTISTS_FILE := ARTISTS_FILE fs;
      FAVORITES_FILE := save_txt e c (FAVORITES_FILE fs);
      DB_GENERAL := DB_GENERAL fs;
      DB_VIDEO := DB_VIDEO fs;
      DB_PERMANENT := DB_PERMANENT fs |}).

(** Lines 587-593 of [index]: every favourite without a record in [db_perm]
    is handed to [add_url_manually]; [fetch] is the network for that call. *)
Definition index_backfill (e : env) (fetch : pystr → outcome)
    (self : crawler) (fs : data_dir) : crawler * data_dir :=
  let missing_metadata :=
    List.filter (λ u, negb (dict_mem u (db_perm self))) (favorite_urls self) in
  foldl (λ st u, add_url_manually e (fetch u) u st.1 st.2) (self, fs)
        missing_metadata.


(** *** Notions used by the statements *)

(** Where the loop of lines 131-140 sends a record. *)
Definition to_general (s : song) : bool := negb (is_piano s) && negb (is_video s).
Definition to_video (s : song) : bool := negb (is_piano s) && is_video s.
Definition to_perm (followed : list pystr) (s : song) : bool :=
  is_piano s || negb (is_video s) && is_followed followed s.

(** No record of the store is tagged piano. *)
Definition no_piano (d : pydict) : Prop :=
  Forall (λ s, is_piano s = false) (dict_values d).

(** Every record is stored under its own URL. *)
Definition well_keyed (d : pydict) : Prop :=
  Forall (λ kv, url kv.2 = kv.1) d.

Definition store_ok (d : pydict) : Prop := dict_wf d ∧ well_keyed d.

Definition stores_ok (self : crawler) : Prop :=
  store_ok (db_general self) ∧ store_ok (db_video self) ∧ store_ok (db_perm self).

#[global] Instance dict_wf_dec d : Decision (dict_wf d).
Proof. unfold dict_wf. apply _. Defined.
#[global] Instance no_piano_dec d : Decision (no_piano d).
Proof. unfold no_piano. apply _. Defined.
#[global] Instance well_keyed_dec d : Decision (well_keyed d).
Proof. unfold well_keyed. apply _. Defined.
#[global] Instance store_ok_dec d : Decision (store_ok d).
Proof. unfold store_ok. apply _. Defined.
#[global] Instance stores_ok_dec self : Decision (stores_ok self).
Proof. unfold stores_ok. apply _. Defined.

(** A data directory without files, as on the first start (line 31). *)
Definition empty_dir : data_dir :=
  {| ARTISTS_FILE := None; FAVORITES_FILE := None;
     DB_GENERAL := None; DB_VIDEO := None; DB_PERMANENT := None |}.

(** The crawler and its data directory after any run of the program from a
    first start: full crawls, manual adds, toggles, page loads, restarts. *)
Inductive reachable : crawler → data_dir → Prop :=
  | reach_start : reachable (init empty_dir) empty_dir
  | reach_restart self fs :
      reachable self fs → reachable (init fs) fs
  | reach_scrape e o self fs :
      reachable self fs →
      reachable (scrape_all e o self fs).1 (scrape_all e o self fs).2
  | reach_add e o u self fs :
      reachable self fs →
      reachable (add_url_manually e o u self fs).1
                (add_url_manually e o u self fs).2
  | reach_follow e a self fs :
      reachable self fs →
      reachable (api_follow e a self fs).1 (api_follow e a self fs).2
  | reach_favorite e u self fs :
      reachable self fs →
      reachable (api_favorite e u self fs).1 (api_favorite e u self fs).2
  | reach_index e fetch self fs :
      reachable self fs →
      reachable (index_backfill e fetch self fs).1 (index_backfill e fetch self fs).2.

(** What the proofs carry along a run. *)
Definition run_inv (self : crawler) (fs : data_dir) : Prop :=
  stores_ok self
  ∧ no_piano (db_general self) ∧ no_piano (db_video self)
  ∧ store_ok (load_json (DB_GENERAL fs)) ∧ store_ok (load_json (DB_VIDEO fs))
  ∧ store_ok (load_json (DB_PERMANENT fs))
  ∧ no_piano (load_json (DB_GENERAL fs)) ∧ no_piano (load_json (DB_VIDEO fs)).

(** *** Sample data *)

(** ASCII stand-ins for the Unicode tables and a plain [urljoin]. *)
Definition sample_decimal (c : N) : bool := ((48 <=? c) && (c <=? 57))%N.

Definition sample_lower (s : pystr) : pystr :=
  (λ c, if ((65 <=? c) && (c <=? 90))%N then (c + 32)%N else c) <$> s.

Definition sample_urljoin (base href : pystr) : option pystr :=
  Some (if startswith (py "http") href then href
        else py "https://www.ufret.jp/" ++ href).

Definition day1 : env := {| env_today := py "2026-01-01"; env_writable := true |}.
Definition day2 : env := {| env_today := py "2026-01-02"; env_writable := true |}.

Definition no_songs : crawler :=
  {| followed_artists := []; favorite_urls := [];
     db_general := []; db_video := []; db_perm := [] |}.

(** Numbered records: titles [song00], [song01], ... with their own URLs. *)
Definition two_digits (i : nat) : pystr :=
  [N.of_nat (48 + i / 10); N.of_nat (48 + i mod 10)].

Definition numbered (i : nat) : song :=
  {| title := py "song" ++ two_digits i; artist := py "Band";
     url := py "https://www.ufret.jp/song.php?data=" ++ two_digits i;
     tags := []; is_piano := false; is_video := false;
     discovered_at := py "2026-01-01" |}.

Definition fifty : list song := numbered <$> seq 0 50.

(** The same song scraped on two days. *)
Definition hit_old : song :=
  {| title := py "Hit"; artist := py "Star";
     url := py "https://www.ufret.jp/song.php?data=hit";
     tags := []; is_piano := false; is_video := false;
     discovered_at := py "2026-01-01" |}.

Definition hit_new : song :=
  {| title := py "Hit"; artist := py "Star";
     url := py "https://www.ufret.jp/song.php?data=hit";
     tags := [py "NEW"]; is_piano := false; is_video := false;
     discovered_at := py "2026-01-02" |}.

Definition only_hit : crawler :=
  {| followed_artists := []; favorite_urls := [];
     db_general := [(url hit_old, hit_old)]; db_video := []; db_perm := [] |}.

(** The hit's URL stored under an older title. *)
Definition hit_renamed : song :=
  {| title := py "Hit (demo)"; artist := py "Star";
     url := py "https://www.ufret.jp/song.php?data=hit";
     tags := []; is_piano := false; is_video := false;
     discovered_at := py "2025-12-31" |}.

Definition only_renamed : crawler :=
  {| followed_artists := []; favorite_urls := [];
     db_general := [(url hit_renamed, hit_renamed)]; db_video := []; db_perm := [] |}.

(** A listing where fifty other songs come before the hit. *)
Definition long_listing : list song := fifty ++ [hit_new].

(** A full general store. *)
Definition full_general : crawler :=
  {| followed_artists := []; favorite_urls := [];
     db_general := (λ s, (url s, s)) <$> fifty; db_video := []; db_perm := [] |}.

(** A record tagged both piano and video, and a plain one. *)
Definition piano_clip : song :=
  {| title := py "Etude"; artist := py "Duo";
     url := py "https://www.ufret.jp/song.php?data=etude";
     tags := [s_piano_solo; s_video_plus]; is_piano := true; is_video := true;
     discovered_at := py "2026-01-02" |}.

(** One URL held by all three stores with three different records. *)
Definition tri_url : pystr := py "https://www.ufret.jp/song.php?data=tri".

Definition tri (t : string) (video : bool) : song :=
  {| title := py t; artist := py "Trio"; url := tri_url;
     tags := []; is_piano := false; is_video := video;
     discovered_at := py "2026-01-01" |}.

Definition tri_stores : crawler :=
  {| followed_artists := []; favorite_urls := [tri_url];
     db_general := [(url (numbered 0), numbered 0); (tri_url, tri "general" false)];
     db_video := [(tri_url, tri "video" true)];
     db_perm := [(tri_url, tri "permanent" false)] |}.

(** A favourite that manual add is asked to add again. *)
Definition fav_url : pystr := py "https://www.ufret.jp/song.php?data=fav".

Definition fetched (text : string) : outcome := Answered 200 (py text).

Definition fav_page : detail_page :=
  {| page_h1 := Some {| h1_bold := Some (py "Ballad");
                        h1_own_string := None;
                        h1_sized := Some (py "Singer") |};
     page_badges := [] |}.

Definition one_favorite : crawler :=
  {| followed_artists := []; favorite_urls := [fav_url];
     db_general := []; db_video := []; db_perm := [] |}.

Definition one_favorite_dir : data_dir :=
  {| ARTISTS_FILE := None; FAVORITES_FILE := Some [fav_url];
     DB_GENERAL := None; DB_VIDEO := None; DB_PERMANENT := None |}.

(** Listing items: an ordinary one, one without text, and one whose only
    candidate segment is a noise label. *)
Definition plain_item : item :=
  {| item_link := Some {| a_href := Some (py "song.php?data=1");
                          a_strings := [py " My Song "; py "- Singer"; py "NEW"] |};
     item_badges := [py "NEW"];
     item_artist := Some (py "- Singer") |}.

Definition bare_item : item :=
  {| item_link := Some {| a_href := Some (py "song.php?data=2"); a_strings := [] |};
     item_badges := [];
     item_artist := None |}.

Definition noise_item : item :=
  {| item_link := Some {| a_href := Some (py "song.php?data=3");
                          a_strings := [s_beginner ++ py " 2026/01/02"] |};
     item_badges := [];
     item_artist := None |}.

(** *** Further parts of the program *)

(** [highlight] and [is_fav] (lines 577-578), the tests of the template. *)
Definition highlight (self : crawler) (s : song) : bool :=
  is_followed (followed_artists self) s.

Definition is_fav (self : crawler) (s : song) : bool :=
  bool_decide (url s ∈ favorite_urls self).

(** A stable sort by insertion: [x] goes past the elements that come
    strictly before it. [sorted] and [list.sort] are stable, with
    [reverse=True] too. *)
Fixpoint insert_sorted (before : song → song → bool) (x : song)
    (l : list song) : list song :=
  match l with
  | [] => [x]
  | y :: r => if before y x then y :: insert_sorted before x r else x :: l
  end.

Definition stable_sort (before : song → song → bool) (l : list song)
  : list song :=
  foldr (insert_sorted before) [] l.

(** Line 596: [data["general"].sort(key=lambda x: x.get("discovered_at", ""),
    reverse=True)]. *)
Definition newer (y x : song) : bool := str_lt (discovered_at x) (discovered_at y).

Definition sorted_newest_first (l : list song) : list song :=
  stable_sort newer l.

(** [index] (lines 583-602) up to the rendering: the backfill of the
    favourites without a record, the snapshot with the general list newest
    first, and the five counts handed to the template. *)
Definition index_page (e : env) (fetch : pystr → outcome)
    (self : crawler) (fs : data_dir)
  : (ui_data * (nat * nat * nat * nat * nat)) * (crawler * data_dir) :=
  let st := index_backfill e fetch self fs in
  let data := get_data_for_ui st.1 in
  let data := {| ui_general := sorted_newest_first (ui_general data);
                 ui_video := ui_video data;
                 ui_piano := ui_piano data;
                 ui_followed := ui_followed data;
                 ui_favorites := ui_favorites data |} in
  ((data, (length (ui_general data), length (ui_video data),
           length (ui_piano data), length (ui_followed data),
           length (ui_favorites data))), st).

(** [scheduler_thread] (lines 227-230). [now] is the local time of day in
    microseconds since midnight; [replace] keeps the date and the arithmetic
    of naive datetimes is exact, so the date plays no part. The result is
    the [timedelta] [target - now], in microseconds, that line 230 turns
    into seconds and sleeps. *)
Definition one_day : Z := 86400000000.
Definition noon : Z := 43200000000.

Definition sleep_delta (now : Z) : Z :=
  let target := noon in
  let target := if (target <=? now)%Z then (target + one_day)%Z else target in
  (target - now)%Z.

(** *** Further notions used by the statements *)

(** An entry that a text file gives back as it is: not empty, without
    surrounding whitespace, not a comment line, on one line. *)
Definition clean_entry (s : pystr) : Prop :=
  s ≠ [] ∧ strip s = s ∧ startswith (py "#") s = false
  ∧ (10%N ∉ s) ∧ (13%N ∉ s).

#[global] Instance clean_entry_dec s : Decision (clean_entry s).
Proof. unfold clean_entry. apply _. Defined.

(** Among the records of [l] a URL goes with one (title, artist) key. *)
Definition url_fixes_key (l : list song) : Prop :=
  Forall (λ x, Forall (λ y, url x = url y → song_key x = song_key y) l) l.

#[global] Instance url_fixes_key_dec l : Decision (url_fixes_key l).
Proof. unfold url_fixes_key. apply _. Defined.

(** A capped store as the merge leaves it: within the cap, with pairwise
    distinct keys, holding records of its own class only. *)
Definition tidy (cap : nat) (cls : song → bool) (d : pydict) : Prop :=
  length d ≤ cap
  ∧ NoDup (song_key <$> dict_values d)
  ∧ Forall (λ s, cls s = true) (dict_values d).

#[global] Instance tidy_dec cap cls d : Decision (tidy cap cls d).
Proof. unfold tidy. apply _. Defined.

Definition run_tidy (self : crawler) (fs : data_dir) : Prop :=
  tidy 50 to_general (db_general self) ∧ tidy 20 to_video (db_video self)
  ∧ tidy 50 to_general (load_json (DB_GENERAL fs))
  ∧ tidy 20 to_video (load_json (DB_VIDEO fs)).

(** [x] does not come after [y] in the order of the artists, of the dates
    from the newest. *)
Definition artist_le (x y : song) : Prop := str_lt (artist y) (artist x) = false.
Definition not_older (x y : song) : Prop :=
  str_lt (discovered_at x) (discovered_at y) = false.

(** How often [x] occurs in a list of strings. *)
Definition occurrences (x : pystr) (c : list pystr) : nat :=
  length (List.filter (λ y, bool_decide (y = x)) c).

(** *** More sample data *)

(** An element without a link, which [parse_song_item] gives up on. *)
Definition linkless_item : item :=
  {| item_link := None; item_badges := [py "NEW"]; item_artist := None |}.

(** A parser for two pages: one with three items and one whose only item
    has no link. *)
Definition sample_listing (html : pystr) : list item :=
  if bool_decide (html = py "<nothing>") then [linkless_item]
  else [plain_item; bare_item; noise_item].

(** A video record of the artist of the hit. *)
Definition star_clip : song :=
  {| title := py "Hit (live)"; artist := py "Star";
     url := py "https://www.ufret.jp/song.php?data=live";
     tags := [s_video_plus]; is_piano := false; is_video := true;
     discovered_at := py "2026-01-02" |}.

(** A crawler that follows the artist, with empty stores. *)
Definition fan : crawler :=
  {| followed_artists := [py "star"]; favorite_urls := [];
     db_general := []; db_video := []; db_perm := [] |}.

(** A detail page whose heading has no text of its own. *)
Definition blank_page : detail_page :=
  {| page_h1 := Some {| h1_bold := None; h1_own_string := None; h1_sized := None |};
     page_badges := [s_piano_solo] |}.

(** ** Deduplication *)

Lemma foldl_dedup_step seen unique xs :
  (foldl dedup_step (seen, unique) xs).2 = unique ++ dedup_from seen xs.
Proof.
  revert seen unique. induction xs as [|x r IH]; intros seen unique; simpl.
  - by rewrite app_nil_r.
  - unfold dedup_step at 2; simpl. destruct (decide (song_key x ∈ seen)).
    + apply IH.
    + rewrite IH, <- app_assoc. done.
Qed.

Lemma dedup_unfold xs : deduplicate_songs xs = dedup_from ∅ xs.
Proof. unfold deduplicate_songs. by rewrite foldl_dedup_step. Qed.

Lemma dedup_from_elem seen xs x :
  x ∈ dedup_from seen xs → x ∈ xs ∧ song_key x ∉ seen.
Proof.
  revert seen. induction xs as [|y r IH]; intros seen; simpl.
  - by intros ?%elem_of_nil.
  - destruct (decide (song_key y ∈ seen)).
    + intros [? ?]%IH. split; [by right | done].
    + intros [->|H]%elem_of_cons; [split; [by left | done] |].
      destruct (IH _ H) as [? ?]. split; [by right | set_solver].
Qed.

Lemma dedup_from_NoDup seen xs : NoDup (song_key <$> dedup_from seen xs).
Proof.
  revert seen. induction xs as [|y r IH]; intros seen; simpl; [constructor|].
  destruct (decide (song_key y ∈ seen)); [apply IH|].
  rewrite fmap_cons. constructor; [|apply IH].
  intros (z & Hk & Hz)%list_elem_of_fmap.
  destruct (dedup_from_elem _ _ _ Hz) as [_ Hn]. apply Hn.
  rewrite <- Hk. set_solver.
Qed.

Lemma dedup_from_sublist seen xs : dedup_from seen xs `sublist_of` xs.
Proof.
  revert seen. induction xs as [|y r IH]; intros seen; simpl; [done|].
  destruct (decide (song_key y ∈ seen)).
  - by apply sublist_cons.
  - by apply sublist_skip.
Qed.

Lemma dedup_from_complete seen xs x :
  x ∈ xs → song_key x ∉ seen →
  ∃ y, y ∈ dedup_from seen xs ∧ song_key y = song_key x.
Proof.
  revert seen. induction xs as [|y r IH]; intros seen; simpl.
  - by intros ?%elem_of_nil.
  - intros [->|Hx]%elem_of_cons Hs.
    + rewrite decide_False by done. exists y. split; [by left | done].
    + destruct (decide (song_key y ∈ seen)); [by apply IH|].
      destruct (decide (song_key x = song_key y)) as [E|E].
      * exists y. split; [by left | done].
      * destruct (IH ({[song_key y]} ∪ seen) Hx) as (z & ? & ?); [set_solver|].
        exists z. split; [by right | done].
Qed.

Lemma dedup_from_id seen xs :
  NoDup (song_key <$> xs) → (∀ x, x ∈ xs → song_key x ∉ seen) →
  dedup_from seen xs = xs.
Proof.
  revert seen. induction xs as [|y r IH]; intros seen; simpl; [done|].
  rewrite ?fmap_cons. intros [Hy Hr]%NoDup_cons Hs.
  rewrite decide_False by (apply Hs; by left). f_equal.
  apply IH; [done|]. intros x Hx.
  assert (song_key x ≠ song_key y).
  { intros E. apply Hy. rewrite <- E. by apply list_elem_of_fmap_2. }
  specialize (Hs x). set_solver.
Qed.

Lemma dedup_from_app seen a b :
  dedup_from seen (a ++ b)
  = dedup_from seen a ++ dedup_from (keys_of a ∪ seen) b.
Proof.
  revert seen. induction a as [|y r IH]; intros seen; simpl.
  - unfold keys_of; simpl. f_equal. set_solver.
  - destruct (decide (song_key y ∈ seen)).
    + rewrite IH. do 2 f_equal. unfold keys_of; simpl. set_solver.
    + simpl. rewrite IH. do 3 f_equal. unfold keys_of; simpl. set_solver.
Qed.

Lemma union_absorb_key (k : pystr * pystr) (seen : gset (pystr * pystr)) :
  k ∈ seen → {[ k ]} ∪ seen = seen.
Proof. set_solver. Qed.

Lemma keys_of_snoc pre x : keys_of (pre ++ [x]) = {[ song_key x ]} ∪ keys_of pre.
Proof. unfold keys_of. rewrite fmap_app. simpl. set_solver. Qed.

Lemma elem_of_keys_of k xs : k ∈ keys_of xs ↔ k ∈ song_key <$> xs.
Proof. unfold keys_of. by rewrite elem_of_list_to_set. Qed.

Lemma dedup_from_first_occurrences pre xs :
  dedup_from (keys_of pre) xs = first_occurrences_after pre xs.
Proof.
  revert pre. induction xs as [|x r IH]; intros pre; [done|].
  unfold first_occurrences_after. rewrite length_cons, <- cons_seq.
  simpl omap. rewrite list_lookup_middle by done. simpl.
  rewrite take_app_length.
  assert (Hrest : omap (λ i, y ← (pre ++ x :: r) !! i;
                    if decide (song_key y ∈ song_key <$> take i (pre ++ x :: r))
                    then None else Some y) (seq (S (length pre)) (length r))
                  = first_occurrences_after (pre ++ [x]) r).
  { unfold first_occurrences_after. rewrite <- app_assoc. simpl.
    rewrite length_app. simpl. by rewrite Nat.add_1_r. }
  destruct (decide (song_key x ∈ keys_of pre)) as [Hin|Hin].
  - rewrite decide_True by (by apply elem_of_keys_of).
    etrans; [|symmetry; exact Hrest].
    rewrite <- IH, keys_of_snoc. f_equal. symmetry. by apply union_absorb_key.
  - rewrite decide_False by (by rewrite <- elem_of_keys_of).
    f_equal. etrans; [|symmetry; exact Hrest].
    by rewrite <- IH, keys_of_snoc.
Qed.

(** C5. [deduplicate_songs] is stable and first-seen-wins: its output is
    exactly the records at the positions of the input that hold the first
    occurrence of their (title, artist) key, in input order
    ([first_occurrences]); hence the keys of the output are pairwise
    distinct, the output is a subsequence of the input, and every key of
    the input is kept once. Keys are compared by equality of code points,
    so the match is exact and case-sensitive. *)
Theorem deduplicate_songs_first_seen_wins (xs : list song) :
  deduplicate_songs xs = first_occurrences xs
  ∧ NoDup (song_key <$> deduplicate_songs xs)
  ∧ deduplicate_songs xs `sublist_of` xs
  ∧ (∀ x, x ∈ xs → ∃ y, y ∈ deduplicate_songs xs ∧ song_key y = song_key x).
Proof.
  rewrite dedup_unfold. split_and!.
  - apply (dedup_from_first_occurrences [] xs).
  - apply dedup_from_NoDup.
  - apply dedup_from_sublist.
  - intros x Hx. apply dedup_from_complete; [done | set_solver].
Qed.

(** C8. Deduplication is idempotent. *)
Theorem deduplicate_songs_idempotent (xs : list song) :
  deduplicate_songs (deduplicate_songs xs) = deduplicate_songs xs.
Proof.
  rewrite (dedup_unfold (deduplicate_songs xs)).
  apply dedup_from_id; [|set_solver].
  rewrite dedup_unfold. apply dedup_from_NoDup.
Qed.

(** ** Dictionaries *)

Lemma dict_set_length k v d : length (dict_set k v d) ≤ S (length d).
Proof.
  induction d as [|[k' v'] r IH]; simpl; [done|].
  destruct (decide (k = k')); simpl; lia.
Qed.

Lemma dict_get_set k' k v d :
  dict_get k' (dict_set k v d) = if decide (k' = k) then Some v else dict_get k' d.
Proof.
  induction d as [|[k0 v0] r IH]; simpl.
  - by destruct (decide (k' = k)).
  - destruct (decide (k = k0)) as [->|]; simpl.
    + by destruct (decide (k' = k0)).
    + rewrite IH. destruct (decide (k' = k0)) as [->|]; [|done].
      by rewrite decide_False.
Qed.

Lemma dict_set_keys k v d :
  (dict_set k v d).*1 = if decide (k ∈ d.*1) then d.*1 else d.*1 ++ [k].
Proof.
  induction d as [|[k0 v0] r IH]; csimpl; [done|].
  destruct (decide (k = k0)) as [->|Hne]; csimpl.
  - rewrite decide_True by (by left). done.
  - rewrite IH. destruct (decide (k ∈ r.*1)).
    + rewrite decide_True by (by right). done.
    + rewrite decide_False by (by intros [?|?]%elem_of_cons). done.
Qed.

Lemma dict_set_wf k v d : dict_wf d → dict_wf (dict_set k v d).
Proof.
  unfold dict_wf. rewrite dict_set_keys. intros Hd.
  destruct (decide (k ∈ d.*1)); [done|].
  apply NoDup_app. split_and!; [done| |apply NoDup_singleton].
  intros x Hx ->%list_elem_of_singleton. done.
Qed.

Lemma dict_set_values k v d x :
  x ∈ dict_values (dict_set k v d) → x = v ∨ x ∈ dict_values d.
Proof.
  unfold dict_values. induction d as [|[k0 v0] r IH]; simpl.
  - intros ->%list_elem_of_singleton. by left.
  - destruct (decide (k = k0)); simpl.
    + intros [->|?]%elem_of_cons; [by left|]. right. by right.
    + intros [->|H]%elem_of_cons; [right; by left|].
      destruct (IH H); [by left|]. right. by right.
Qed.

Lemma dict_get_elem k v d : dict_get k d = Some v → (k, v) ∈ d.
Proof.
  induction d as [|[k0 v0] r IH]; simpl; [done|].
  destruct (decide (k = k0)) as [->|]; [intros [= ->]; by left|].
  intros ?. right. by apply IH.
Qed.

Lemma dict_get_None k d : dict_get k d = None ↔ k ∉ d.*1.
Proof.
  induction d as [|[k0 v0] r IH]; simpl.
  - split; [intros _ ?%elem_of_nil; done | done].
  - destruct (decide (k = k0)) as [->|].
    + split; [done|]. intros []. by left.
    + rewrite IH. split; [intros ? [?|?]%elem_of_cons; done|].
      intros H ?. apply H. by right.
Qed.

Lemma dict_elem_get k v d : dict_wf d → (k, v) ∈ d → dict_get k d = Some v.
Proof.
  unfold dict_wf. induction d as [|[k0 v0] r IH]; simpl.
  - by intros _ ?%elem_of_nil.
  - intros [Hk Hr]%NoDup_cons [[= -> ->]|Hin]%elem_of_cons.
    + by rewrite decide_True.
    + rewrite decide_False; [by apply IH|].
      intros ->. apply Hk. by apply (list_elem_of_fmap_2 fst _ (k0, v)).
Qed.

Lemma dict_add_songs_length d l :
  length (dict_add_songs d l) ≤ length d + length l.
Proof.
  unfold dict_add_songs. revert d. induction l as [|s r IH]; intros d; simpl; [lia|].
  specialize (IH (dict_set (url s) s d)).
  pose proof (dict_set_length (url s) s d). lia.
Qed.

Lemma dict_of_songs_length l : length (dict_of_songs l) ≤ length l.
Proof. apply (dict_add_songs_length [] l). Qed.

Lemma dict_add_songs_values d l x :
  x ∈ dict_values (dict_add_songs d l) → x ∈ dict_values d ∨ x ∈ l.
Proof.
  unfold dict_add_songs. revert d. induction l as [|s r IH]; intros d; simpl; [by left|].
  intros [H|H]%IH; [|right; by right].
  apply dict_set_values in H as [->|?]; [right; by left | by left].
Qed.

Lemma dict_of_songs_values l x : x ∈ dict_values (dict_of_songs l) → x ∈ l.
Proof.
  intros [H|H]%(dict_add_songs_values [] l); [|done].
  by apply elem_of_nil in H.
Qed.

Lemma dict_add_songs_wf d l : dict_wf d → dict_wf (dict_add_songs d l).
Proof.
  unfold dict_add_songs. revert d. induction l as [|s r IH]; intros d Hd; simpl; [done|].
  by apply IH, dict_set_wf.
Qed.

Lemma dict_of_songs_wf l : dict_wf (dict_of_songs l).
Proof. apply (dict_add_songs_wf [] l), NoDup_nil_2. Qed.

(** ** The caps *)

Lemma scrape_merge_stores e scraped self fs :
  let r := route (followed_artists self) scraped (db_perm self) in
  (scrape_merge e scraped self fs).1 =
    {| followed_artists := followed_artists self;
       favorite_urls := favorite_urls self;
       db_general := dict_of_songs
         (take 50 (deduplicate_songs (r.1.1 ++ dict_values (db_general self))));
       db_video := dict_of_songs
         (take 20 (deduplicate_songs (r.1.2 ++ dict_values (db_video self))));
       db_perm := r.2 |}.
Proof.
  unfold scrape_merge. simpl.
  by destruct (route (followed_artists self) scraped (db_perm self))
    as [[g v] p].
Qed.

(** C1. After the merge of a full crawl the general store holds at most 50
    records and the video store at most 20, whatever the stores held before
    and whatever was scraped: for the merge block on any list of scraped
    records, and for [scrape_all] whenever the page was fetched, so that
    the merge is performed. *)
Theorem scrape_all_caps (e : env) (self : crawler) (fs : data_dir) :
  (∀ scraped : list song,
     length (db_general (scrape_merge e scraped self fs).1) ≤ 50
     ∧ length (db_video (scrape_merge e scraped self fs).1) ≤ 20)
  ∧ (∀ o : outcome,
       not_html (fetch_page o) = false →
       let self' := (scrape_all e o self fs).1 in
       length (db_general self') ≤ 50 ∧ length (db_video self') ≤ 20).
Proof.
  assert (Hcap : ∀ scraped self0,
    length (db_general (scrape_merge e scraped self0 fs).1) ≤ 50
    ∧ length (db_video (scrape_merge e scraped self0 fs).1) ≤ 20).
  { intros scraped self0. rewrite scrape_merge_stores. simpl. split.
    - etrans; [apply dict_of_songs_length|]. rewrite length_take. lia.
    - etrans; [apply dict_of_songs_length|]. rewrite length_take. lia. }
  split; [intros; apply Hcap|].
  intros o Ho. unfold scrape_all. simpl. rewrite Ho. apply Hcap.
Qed.

(** ** Routing *)

Lemma route_foldl followed scraped g v p :
  foldl (route_step followed) (g, v, p) scraped
  = (g ++ List.filter to_general scraped,
     v ++ List.filter to_video scraped,
     dict_add_songs p (List.filter (to_perm followed) scraped)).
Proof.
  revert g v p. induction scraped as [|s r IH]; intros g v p; simpl.
  - by rewrite !app_nil_r.
  - unfold to_general, to_video, to_perm at 1.
    destruct (is_piano s); simpl; [apply IH|].
    destruct (is_video s); simpl.
    + rewrite IH, <- app_assoc. done.
    + rewrite IH, <- app_assoc. by destruct (is_followed followed s).
Qed.

Lemma route_eq followed scraped perm :
  route followed scraped perm
  = (List.filter to_general scraped, List.filter to_video scraped,
     dict_add_songs perm (List.filter (to_perm followed) scraped)).
Proof. apply (route_foldl followed scraped [] [] perm). Qed.

Lemma elem_of_filter_bool (f : song → bool) l x :
  x ∈ List.filter f l ↔ x ∈ l ∧ f x = true.
Proof. rewrite !list_elem_of_In. apply filter_In. Qed.

Lemma scrape_merge_general e scraped self fs :
  db_general (scrape_merge e scraped self fs).1
  = dict_of_songs (take 50 (deduplicate_songs
      (List.filter to_general scraped ++ dict_values (db_general self)))).
Proof. by rewrite scrape_merge_stores, route_eq. Qed.

Lemma scrape_merge_video e scraped self fs :
  db_video (scrape_merge e scraped self fs).1
  = dict_of_songs (take 20 (deduplicate_songs
      (List.filter to_video scraped ++ dict_values (db_video self)))).
Proof. by rewrite scrape_merge_stores, route_eq. Qed.

Lemma scrape_merge_perm e scraped self fs :
  db_perm (scrape_merge e scraped self fs).1
  = dict_add_songs (db_perm self)
      (List.filter (to_perm (followed_artists self)) scraped).
Proof. by rewrite scrape_merge_stores, route_eq. Qed.

Lemma merged_values cap new old x :
  x ∈ dict_values (dict_of_songs (take cap (deduplicate_songs (new ++ old)))) →
  x ∈ new ∨ x ∈ old.
Proof.
  intros H%dict_of_songs_values. apply elem_of_app.
  apply (elem_of_sublist (deduplicate_songs (new ++ old)));
    [|rewrite dedup_unfold; apply dedup_from_sublist].
  eapply elem_of_sublist; [done | apply sublist_take].
Qed.

(** ** Invariants of the stores *)

Lemma no_piano_spec d :
  no_piano d ↔ ∀ s, s ∈ dict_values d → is_piano s = false.
Proof. apply Forall_forall. Qed.

Lemma well_keyed_spec d : well_keyed d ↔ ∀ k v, (k, v) ∈ d → url v = k.
Proof.
  unfold well_keyed. rewrite Forall_forall. split.
  - intros H k v Hin. apply (H (k, v) Hin).
  - intros H [k v] Hin. by apply H.
Qed.

Lemma dict_set_elem k v d kv : kv ∈ dict_set k v d → kv = (k, v) ∨ kv ∈ d.
Proof.
  induction d as [|[k0 v0] r IH]; simpl.
  - intros ->%list_elem_of_singleton. by left.
  - destruct (decide (k = k0)).
    + intros [->|?]%elem_of_cons; [by left|]. right. by right.
    + intros [->|H]%elem_of_cons; [right; by left|].
      destruct (IH H); [by left|]. right. by right.
Qed.

Lemma store_ok_nil : store_ok [].
Proof. split; [apply NoDup_nil_2 | apply Forall_nil_2]. Qed.

Lemma store_ok_set s d : store_ok d → store_ok (dict_set (url s) s d).
Proof.
  intros [Hwf Hk]. pose proof (proj1 (well_keyed_spec _) Hk) as Hk'.
  clear Hk. rename Hk' into Hk. split; [by apply dict_set_wf|].
  apply well_keyed_spec.
  intros k v [[= -> ->]|?]%dict_set_elem; [done | by apply Hk].
Qed.

Lemma store_ok_set_at u s d : url s = u → store_ok d → store_ok (dict_set u s d).
Proof. intros <-. apply store_ok_set. Qed.

Lemma store_ok_add_songs d l : store_ok d → store_ok (dict_add_songs d l).
Proof.
  unfold dict_add_songs. revert d. induction l as [|s r IH]; intros d Hd; simpl; [done|].
  by apply IH, store_ok_set.
Qed.

Lemma store_ok_of_songs l : store_ok (dict_of_songs l).
Proof. apply (store_ok_add_songs [] l), store_ok_nil. Qed.

Lemma no_piano_nil : no_piano [].
Proof. apply Forall_nil_2. Qed.

Lemma no_piano_merged cap new old :
  (∀ s, s ∈ new → is_piano s = false) → no_piano old →
  no_piano (dict_of_songs (take cap (deduplicate_songs (new ++ dict_values old)))).
Proof.
  intros Hn Ho. pose proof (proj1 (no_piano_spec _) Ho) as Ho'.
  clear Ho. rename Ho' into Ho. apply no_piano_spec.
  intros s [?|?]%merged_values; [by apply Hn | by apply Ho].
Qed.

Lemma to_general_no_piano scraped s :
  s ∈ List.filter to_general scraped → is_piano s = false.
Proof.
  intros [_ H]%elem_of_filter_bool. unfold to_general in H.
  by destruct (is_piano s).
Qed.

Lemma to_video_no_piano scraped s :
  s ∈ List.filter to_video scraped → is_piano s = false.
Proof.
  intros [_ H]%elem_of_filter_bool. unfold to_video in H.
  by destruct (is_piano s).
Qed.

Lemma scrape_merge_no_piano e scraped self fs :
  no_piano (db_general self) → no_piano (db_video self) →
  no_piano (db_general (scrape_merge e scraped self fs).1)
  ∧ no_piano (db_video (scrape_merge e scraped self fs).1).
Proof.
  intros Hg Hv. rewrite scrape_merge_general, scrape_merge_video. split.
  - apply no_piano_merged; [apply to_general_no_piano | done].
  - apply no_piano_merged; [apply to_video_no_piano | done].
Qed.

Lemma scrape_merge_stores_ok e scraped self fs :
  store_ok (db_perm self) → stores_ok (scrape_merge e scraped self fs).1.
Proof.
  intros Hp. unfold stores_ok.
  rewrite scrape_merge_general, scrape_merge_video, scrape_merge_perm.
  split_and!; [apply store_ok_of_songs.. | by apply store_ok_add_songs].
Qed.

Lemma save_json_cases e d old :
  load_json (save_json e d old) = d ∨ save_json e d old = old.
Proof. unfold save_json. destruct (env_writable e); [by left | by right]. Qed.

(** A goal about a file after [save_json]: it holds the new dictionary or
    is as it was. *)
Ltac save_json_split :=
  match goal with
  | |- context [save_json ?e ?d ?old] =>
      destruct (save_json_cases e d old) as [-> | ->]
  end.

Lemma scrape_merge_inv e scraped self fs :
  run_inv self fs →
  run_inv (scrape_merge e scraped self fs).1 (scrape_merge e scraped self fs).2.
Proof.
  intros ((Hg & Hv & Hp) & Hng & Hnv & Hfg & Hfv & Hfp & Hfng & Hfnv).
  pose proof (scrape_merge_stores_ok e scraped self fs Hp) as (Hg' & Hv' & Hp').
  pose proof (scrape_merge_no_piano e scraped self fs Hng Hnv) as [Hng' Hnv'].
  assert (Hfs : (scrape_merge e scraped self fs).2 =
    {| ARTISTS_FILE := ARTISTS_FILE fs;
       FAVORITES_FILE := FAVORITES_FILE fs;
       DB_GENERAL := save_json e (db_general (scrape_merge e scraped self fs).1) (DB_GENERAL fs);
       DB_VIDEO := save_json e (db_video (scrape_merge e scraped self fs).1) (DB_VIDEO fs);
       DB_PERMANENT := save_json e (db_perm (scrape_merge e scraped self fs).1) (DB_PERMANENT fs) |}).
  { unfold scrape_merge.
    by destruct (route (followed_artists self) scraped (db_perm self)) as [[g v] p]. }
  rewrite Hfs. unfold run_inv; simpl.
  split_and!; try done; save_json_split; done.
Qed.

Lemma init_inv self fs : run_inv self fs → run_inv (init fs) fs.
Proof.
  intros (_ & _ & _ & Hfg & Hfv & Hfp & Hfng & Hfnv).
  unfold run_inv, stores_ok, init; simpl. by split_and!.
Qed.

Lemma scrape_all_inv e o self fs :
  run_inv self fs →
  run_inv (scrape_all e o self fs).1 (scrape_all e o self fs).2.
Proof.
  intros H. unfold scrape_all. simpl.
  destruct (not_html (fetch_page o)); [exact H|].
  apply scrape_merge_inv. exact H.
Qed.

Lemma manual_song_url today u page : url (manual_song today u page) = u.
Proof. unfold manual_song. by destruct (page_h1 page). Qed.

Lemma add_url_manually_inv e o u self fs :
  run_inv self fs →
  run_inv (add_url_manually e o u self fs).1 (add_url_manually e o u self fs).2.
Proof.
  intros H. unfold add_url_manually. simpl.
  destruct (not_html (fetch_page o)); [exact H|].
  set (page := detail_of (default [] (fetch_page o))).
  destruct H as ((Hg & Hv & Hp) & Hng & Hnv & Hfg & Hfv & Hfp & Hfng & Hfnv).
  assert (Hp' : store_ok (if dict_mem u (db_perm self) then db_perm self
                 else dict_set u (manual_song (env_today e) u page) (db_perm self))).
  { destruct (dict_mem u (db_perm self)); [done|].
    apply store_ok_set_at; [apply manual_song_url | done]. }
  unfold run_inv, stores_ok; simpl. split_and!; try done.
  save_json_split; done.
Qed.

Lemma index_backfill_inv e fetch self fs :
  run_inv self fs →
  run_inv (index_backfill e fetch self fs).1 (index_backfill e fetch self fs).2.
Proof.
  unfold index_backfill.
  generalize (List.filter (λ u, negb (dict_mem u (db_perm self))) (favorite_urls self)).
  intros l. revert self fs. induction l as [|u r IH]; intros self fs H; simpl; [done|].
  destruct (add_url_manually e (fetch u) u self fs) as [self' fs'] eqn:E.
  apply IH. pose proof (add_url_manually_inv e (fetch u) u self fs H) as H'.
  by rewrite E in H'.
Qed.

(** Every state of a run from a first start satisfies [run_inv]. *)
Lemma reachable_inv self fs : reachable self fs → run_inv self fs.
Proof.
  induction 1 as [|self fs _ IH|e o self fs _ IH|e o u self fs _ IH
                  |e a self fs _ IH|e u self fs _ IH|e fetch self fs _ IH].
  - unfold run_inv, stores_ok, init; simpl.
    split_and!; (apply store_ok_nil || apply no_piano_nil).
  - by apply (init_inv self).
  - by apply scrape_all_inv.
  - by apply add_url_manually_inv.
  - exact IH.
  - exact IH.
  - by apply index_backfill_inv.
Qed.

(** ** What a run of assignments leaves under a URL *)

Lemma dict_get_add_songs u d l :
  dict_get u (dict_add_songs d l)
  = from_option Some (dict_get u d) (last_with_url u l).
Proof.
  unfold dict_add_songs, last_with_url. revert d.
  induction l as [|s r IH]; intros d; simpl; [done|].
  rewrite IH, dict_get_set.
  destruct (decide (u = url s)) as [->|Hne].
  - rewrite bool_decide_eq_true_2 by done. rewrite last_cons.
    by destruct (last _).
  - rewrite bool_decide_eq_false_2 by done. done.
Qed.

Lemma last_with_url_elem u l x : last_with_url u l = Some x → x ∈ l ∧ url x = u.
Proof.
  unfold last_with_url. intros H%last_Some_elem_of.
  apply elem_of_filter_bool in H as [? H]. split; [done|].
  by apply bool_decide_eq_true in H.
Qed.

Lemma last_with_url_is_Some l s : s ∈ l → is_Some (last_with_url (url s) l).
Proof.
  intros Hs. unfold last_with_url. apply last_is_Some.
  intros E. assert (H : s ∈ List.filter (λ r, bool_decide (url r = url s)) l).
  { apply elem_of_filter_bool. split; [done|]. by apply bool_decide_eq_true. }
  rewrite E in H. by apply elem_of_nil in H.
Qed.

Lemma last_with_url_unique l x :
  x ∈ l → (∀ r, r ∈ l → url r = url x → r = x) →
  last_with_url (url x) l = Some x.
Proof.
  intros Hx Hu. destruct (last_with_url_is_Some l x Hx) as [y Hy].
  rewrite Hy. f_equal. apply last_with_url_elem in Hy as [? ?]. by apply Hu.
Qed.

Lemma dict_of_songs_get u l : dict_get u (dict_of_songs l) = last_with_url u l.
Proof.
  change (dict_of_songs l) with (dict_add_songs [] l).
  rewrite dict_get_add_songs. simpl. by destruct (last_with_url u l).
Qed.

(** ** Piano priority *)

(** C4. Piano priority. In a merge of the full crawl, from stores that hold
    no piano-tagged record (as in every state of a run from a first start,
    see [reachable_inv]): a scraped record with [is_piano = true], whatever
    its other tags, is absent from the general and the video store after
    the merge, which hold no piano-tagged record at all; its URL is bound in
    the permanent store to a scraped record of that URL, and to the record
    itself when no other scraped record shares the URL. *)
Theorem piano_priority (e : env) (scraped : list song) (self : crawler)
    (fs : data_dir) (s : song) :
  no_piano (db_general self) → no_piano (db_video self) →
  s ∈ scraped → is_piano s = true →
  let self' := (scrape_merge e scraped self fs).1 in
  (s ∉ dict_values (db_general self')) ∧ (s ∉ dict_values (db_video self'))
  ∧ no_piano (db_general self') ∧ no_piano (db_video self')
  ∧ (∃ r, dict_get (url s) (db_perm self') = Some r ∧ r ∈ scraped ∧ url r = url s)
  ∧ (Forall (λ r, url r = url s → r = s) scraped →
     dict_get (url s) (db_perm self') = Some s).
Proof.
  intros Hg Hv Hs Hp self'.
  destruct (scrape_merge_no_piano e scraped self fs Hg Hv) as [Hg' Hv'].
  assert (Hin : s ∈ List.filter (to_perm (followed_artists self)) scraped).
  { apply elem_of_filter_bool. split; [done|]. unfold to_perm. by rewrite Hp. }
  split_and!.
  - intros H. apply (proj1 (no_piano_spec _) Hg') in H. congruence.
  - intros H. apply (proj1 (no_piano_spec _) Hv') in H. congruence.
  - exact Hg'.
  - exact Hv'.
  - unfold self'. rewrite scrape_merge_perm, dict_get_add_songs.
    destruct (last_with_url_is_Some _ s Hin) as [r Hr]. rewrite Hr. simpl.
    exists r. split; [done|].
    apply last_with_url_elem in Hr as [[? _]%elem_of_filter_bool ?]. done.
  - intros Hu. pose proof (proj1 (Forall_forall _ _) Hu) as Hu'.
    unfold self'. rewrite scrape_merge_perm, dict_get_add_songs.
    rewrite last_with_url_unique; [done | done |].
    intros r [? _]%elem_of_filter_bool. by apply Hu'.
Qed.

(** In a run from a first start the two capped stores never hold a
    piano-tagged record. *)
Lemma reachable_no_piano self fs :
  reachable self fs → no_piano (db_general self) ∧ no_piano (db_video self).
Proof. intros (_ & Hg & Hv & _)%reachable_inv. by split. Qed.

(** ** The merge *)

Lemma key_unique (l : list song) x y :
  NoDup (song_key <$> l) → x ∈ l → y ∈ l → song_key x = song_key y → x = y.
Proof.
  induction l as [|z r IH]; csimpl; [by intros _ ?%elem_of_nil|].
  intros [Hz Hr]%NoDup_cons [->|Hx]%elem_of_cons [->|Hy]%elem_of_cons E; [done| | |by apply IH].
  - destruct Hz. rewrite E. by apply list_elem_of_fmap_2.
  - destruct Hz. rewrite <- E. by apply list_elem_of_fmap_2.
Qed.

Lemma kept_NoDup cap l : NoDup (song_key <$> take cap (deduplicate_songs l)).
Proof.
  apply (sublist_NoDup _ (song_key <$> deduplicate_songs l)).
  - rewrite dedup_unfold. apply dedup_from_NoDup.
  - apply fmap_sublist, sublist_take.
Qed.

Lemma kept_elem cap l x : x ∈ take cap (deduplicate_songs l) → x ∈ l.
Proof.
  intros H. apply (elem_of_sublist (deduplicate_songs l));
    [|rewrite dedup_unfold; apply dedup_from_sublist].
  eapply elem_of_sublist; [done | apply sublist_take].
Qed.

Lemma dedup_split pre x rest :
  song_key x ∉ song_key <$> pre →
  deduplicate_songs (pre ++ x :: rest)
  = deduplicate_songs pre
    ++ x :: dedup_from ({[ song_key x ]} ∪ (keys_of pre ∪ ∅)) rest.
Proof.
  intros Hx. rewrite !dedup_unfold, dedup_from_app. simpl.
  rewrite decide_False; [done|].
  rewrite elem_of_union, elem_of_keys_of. by intros [?|?%elem_of_empty].
Qed.

(** The merge of lines 144-146 and 149-151 on any cap: a new candidate that
    is the first with its key, within the cap, and whose URL goes with no
    other key, is the record the merged store holds under its URL, and the
    only record of the merged store with its key. *)
Lemma merged_new_wins cap (new old pre post : list song) rNew :
  new = pre ++ rNew :: post →
  song_key rNew ∉ song_key <$> pre →
  length (deduplicate_songs pre) < cap →
  (∀ r, r ∈ new ++ old → url r = url rNew → song_key r = song_key rNew) →
  let d := dict_of_songs (take cap (deduplicate_songs (new ++ old))) in
  dict_get (url rNew) d = Some rNew
  ∧ ∀ r, r ∈ dict_values d → song_key r = song_key rNew → r = rNew.
Proof.
  intros -> Hfirst Hcap Hurl d.
  pose proof (kept_NoDup cap ((pre ++ rNew :: post) ++ old)) as Hnd.
  assert (Hin : rNew ∈ take cap (deduplicate_songs ((pre ++ rNew :: post) ++ old))).
  { apply elem_of_take. exists (length (deduplicate_songs pre)). split; [|done].
    rewrite <- app_assoc. simpl. rewrite dedup_split by done.
    by apply list_lookup_middle. }
  split.
  - unfold d. rewrite dict_of_songs_get. apply last_with_url_unique; [done|].
    intros r Hr Hu. apply (key_unique _ _ _ Hnd Hr Hin).
    apply Hurl; [by apply (kept_elem cap) | done].
  - intros r Hr%dict_of_songs_values E. by apply (key_unique _ _ _ Hnd Hr Hin).
Qed.

(** On a collision the survivor of the merge is never a stored record that
    was not scraped again: a record of the merged store whose key occurs
    among the new candidates is one of the new candidates. *)
Lemma merged_collision_is_new cap (new old : list song) r :
  r ∈ dict_values (dict_of_songs (take cap (deduplicate_songs (new ++ old)))) →
  song_key r ∈ song_key <$> new → r ∈ new.
Proof.
  intros Hr%dict_of_songs_values (x & E & Hx)%list_elem_of_fmap.
  pose proof (kept_elem _ _ _ Hr) as Hin.
  assert (Hd : r ∈ deduplicate_songs (new ++ old)).
  { apply (elem_of_sublist (take cap (deduplicate_songs (new ++ old))));
      [exact Hr | apply sublist_take]. }
  rewrite dedup_unfold, dedup_from_app in Hd.
  apply elem_of_app in Hd as [Hd|Hd].
  - by apply dedup_from_elem in Hd as [? _].
  - apply dedup_from_elem in Hd as [_ Hd]. destruct Hd.
    rewrite elem_of_union, elem_of_keys_of. left. rewrite E.
    by apply list_elem_of_fmap_2.
Qed.

(** C3, as the code has it. New wins on a (title, artist) collision: a
    scraped record [rNew] that the crawl routes to the general store (not
    piano, not video), when no general candidate scraped before it has its
    key, fewer than 50 distinct keys occur among the general candidates
    scraped before it, and every general candidate or stored general record
    with its URL has its key, is the record the merged general store holds
    under its URL and the only record there with its key, so that a stored
    record with the same key is gone. The same holds for a record routed to
    the video store, with the cap 20. *)
Theorem new_wins_on_collision (e : env) (self : crawler) (fs : data_dir)
    (pre post : list song) (rNew : song) :
  is_piano rNew = false →
  let scraped := pre ++ rNew :: post in
  let self' := (scrape_merge e scraped self fs).1 in
  (is_video rNew = false →
   song_key rNew ∉ song_key <$> List.filter to_general pre →
   length (deduplicate_songs (List.filter to_general pre)) < 50 →
   Forall (λ r, url r = url rNew → song_key r = song_key rNew)
          (List.filter to_general scraped ++ dict_values (db_general self)) →
   dict_get (url rNew) (db_general self') = Some rNew
   ∧ ∀ r, r ∈ dict_values (db_general self') →
          song_key r = song_key rNew → r = rNew)
  ∧ (is_video rNew = true →
     song_key rNew ∉ song_key <$> List.filter to_video pre →
     length (deduplicate_songs (List.filter to_video pre)) < 20 →
     Forall (λ r, url r = url rNew → song_key r = song_key rNew)
            (List.filter to_video scraped ++ dict_values (db_video self)) →
     dict_get (url rNew) (db_video self') = Some rNew
     ∧ ∀ r, r ∈ dict_values (db_video self') →
            song_key r = song_key rNew → r = rNew).
Proof.
  intros Hp scraped self'.
  split; intros Hv Hfirst Hcap Hurl; unfold self';
    pose proof (proj1 (Forall_forall _ _) Hurl) as Hurl'.
  - rewrite scrape_merge_general.
    apply (merged_new_wins 50 _ _ (List.filter to_general pre)
             (List.filter to_general post)); try done.
    unfold scraped. rewrite List.filter_app. simpl.
    unfold to_general at 2. by rewrite Hp, Hv.
  - rewrite scrape_merge_video.
    apply (merged_new_wins 20 _ _ (List.filter to_video pre)
             (List.filter to_video post)); try done.
    unfold scraped. rewrite List.filter_app. simpl.
    unfold to_video at 2. by rewrite Hp, Hv.
Qed.

(** ** Truncation *)

Lemma dict_set_fresh k v d : k ∉ d.*1 → dict_set k v d = d ++ [(k, v)].
Proof.
  induction d as [|[k0 v0] r IH]; csimpl; [done|].
  intros H. rewrite decide_False by (intros ->; apply H; by left).
  f_equal. apply IH. intros ?. apply H. by right.
Qed.

Lemma dict_add_songs_fresh d l :
  NoDup (url <$> l) → (∀ s, s ∈ l → url s ∉ d.*1) →
  dict_add_songs d l = d ++ ((λ s, (url s, s)) <$> l).
Proof.
  unfold dict_add_songs. revert d.
  induction l as [|s r IH]; intros d; csimpl; [by rewrite app_nil_r|].
  intros [Hs Hr]%NoDup_cons Hd.
  rewrite dict_set_fresh by (apply Hd; by left).
  rewrite IH; [by rewrite <- app_assoc | done |].
  intros x Hx. rewrite fmap_app. csimpl.
  intros [?|E%list_elem_of_singleton]%elem_of_app.
  - apply (Hd x); [by right | done].
  - apply Hs. rewrite <- E. by apply list_elem_of_fmap_2.
Qed.

Lemma dict_of_songs_distinct l :
  NoDup (url <$> l) → dict_of_songs l = (λ s, (url s, s)) <$> l.
Proof.
  intros H. apply (dict_add_songs_fresh [] l H).
  by intros s _ ?%elem_of_nil.
Qed.

Lemma pairs_keys (l : list song) : ((λ s, (url s, s)) <$> l).*1 = url <$> l.
Proof. rewrite <- list_fmap_compose. done. Qed.

Lemma pairs_values (l : list song) : ((λ s, (url s, s)) <$> l).*2 = l.
Proof. rewrite <- list_fmap_compose. apply list_fmap_id. Qed.

(** C7. Truncation evicts the oldest: with 50 records of pairwise distinct
    keys and pairwise distinct URLs in the general store, the merge of one
    new general record whose key and URL occur in none of them leaves
    exactly 50 records, the new one among them under its URL, and without
    the record that was last in the order of the store. *)
Theorem truncation_evicts_oldest (e : env) (self : crawler) (fs : data_dir)
    (new oldest : song) :
  length (db_general self) = 50 →
  NoDup (song_key <$> dict_values (db_general self)) →
  NoDup (url <$> dict_values (db_general self)) →
  is_piano new = false → is_video new = false →
  song_key new ∉ song_key <$> dict_values (db_general self) →
  url new ∉ url <$> dict_values (db_general self) →
  last (dict_values (db_general self)) = Some oldest →
  let general' := db_general (scrape_merge e [new] self fs).1 in
  length general' = 50
  ∧ dict_get (url new) general' = Some new
  ∧ (oldest ∉ dict_values general')
  ∧ dict_get (url oldest) general' = None
  ∧ dict_values general' = new :: take 49 (dict_values (db_general self)).
Proof.
  intros Hlen Hkeys Hurls Hp Hv Hk Hu Hlast general'.
  set (old := dict_values (db_general self)) in *.
  assert (Hlen' : length old = 50) by (unfold old, dict_values; by rewrite length_fmap).
  assert (Hgen : general' = (λ s, (url s, s)) <$> (new :: take 49 old)).
  { unfold general'. rewrite scrape_merge_general. fold old. simpl.
    unfold to_general at 1. rewrite Hp, Hv. simpl.
    rewrite dedup_unfold, dedup_from_id.
    - change (take 50 (new :: old)) with (new :: take 49 old).
      apply dict_of_songs_distinct. csimpl. apply NoDup_cons. split.
      + intros (x & E & Hx)%list_elem_of_fmap. apply Hu. rewrite E.
        apply list_elem_of_fmap_2. eapply elem_of_sublist; [done | apply sublist_take].
      + apply (sublist_NoDup _ (url <$> old)); [done|].
        apply fmap_sublist, sublist_take.
    - csimpl. apply NoDup_cons. by split.
    - intros x _. apply not_elem_of_empty. }
  apply last_Some in Hlast as [front Hfront].
  assert (Hfl : length front = 49).
  { rewrite Hfront, length_app in Hlen'. simpl in Hlen'. lia. }
  assert (Htake : take 49 old = front).
  { rewrite Hfront. by apply take_app_length'. }
  assert (Hold : url oldest ∉ url <$> (new :: front)).
  { rewrite Hfront, fmap_app in Hurls. apply NoDup_app in Hurls as (_ & Hd & _).
    csimpl. intros [E|Hin]%elem_of_cons.
    - apply Hu. rewrite <- E, Hfront. apply list_elem_of_fmap_2, elem_of_app.
      right. by left.
    - apply (Hd _ Hin). by left. }
  rewrite Hgen, Htake. split_and!.
  - rewrite length_fmap. simpl. lia.
  - simpl. by rewrite decide_True.
  - unfold dict_values. rewrite pairs_values. intros Hin.
    apply Hold. by apply list_elem_of_fmap_2.
  - apply dict_get_None. by rewrite pairs_keys.
  - unfold dict_values. by rewrite pairs_values.
Qed.

(** ** A failed fetch *)

(** C6. When the fetch of the listing page fails ([fetch_page] gives
    [None]: the request raised, on a network error or a time-out, or the
    status was not 2xx), the full crawl leaves the three stores and every
    file of the data directory as they were. (The in-memory lists of
    followed artists and favourites are re-read from their files before the
    fetch, lines 112-116.) *)
Theorem fetch_failure_is_noop (e : env) (o : outcome) (self : crawler)
    (fs : data_dir) :
  fetch_page o = None →
  let r := scrape_all e o self fs in
  db_general r.1 = db_general self
  ∧ db_video r.1 = db_video self
  ∧ db_perm r.1 = db_perm self
  ∧ r.2 = fs
  ∧ followed_artists r.1 = load_txt (ARTISTS_FILE fs)
  ∧ favorite_urls r.1 = load_txt (FAVORITES_FILE fs).
Proof. intros Ho. unfold scrape_all. simpl. rewrite Ho. simpl. by split_and!. Qed.

(** ** The favourites view *)

Lemma dict_get_update k a b :
  dict_wf b →
  dict_get k (dict_update a b)
  = match dict_get k b with Some v => Some v | None => dict_get k a end.
Proof.
  unfold dict_update, dict_wf. revert a.
  induction b as [|[k0 v0] r IH]; intros a; csimpl; [done|].
  intros [Hk Hr]%NoDup_cons. rewrite IH by done. rewrite dict_get_set.
  destruct (decide (k = k0)) as [->|]; [|done].
  by apply dict_get_None in Hk as ->.
Qed.

Lemma dict_update_ok a b : store_ok a → well_keyed b → store_ok (dict_update a b).
Proof.
  unfold dict_update. revert a.
  induction b as [|[k0 v0] r IH]; intros a Ha Hb; simpl; [done|].
  apply Forall_cons in Hb as [Hk Hb]. apply IH; [|done].
  by apply store_ok_set_at.
Qed.

Lemma dict_values_elem (d : pydict) r : r ∈ dict_values d → ∃ k, (k, r) ∈ d.
Proof.
  unfold dict_values. intros ([k v] & -> & H)%list_elem_of_fmap. by exists k.
Qed.

Lemma dict_elem_values (d : pydict) k r : (k, r) ∈ d → r ∈ dict_values d.
Proof. intros H. by apply (list_elem_of_fmap_2 snd _ (k, r)). Qed.

Lemma all_known_ok self : stores_ok self → store_ok (all_known self).
Proof.
  intros (Hg & [_ Hv] & [_ Hp]). unfold all_known.
  apply dict_update_ok; [|done]. by apply dict_update_ok.
Qed.

(** C9. Precedence in the favourites view. Under every URL the merged
    dictionary of line 196 holds the record of the permanent store if that
    store has the URL, else the one of the video store, else the one of the
    general store. The favourites view shows a record only if it is the one
    this dictionary holds under the record's URL and the URL is a
    favourite; and for every favourite URL of the dictionary the view shows
    a record with the (title, artist) key of the record held there. *)
Theorem favorites_view_precedence (self : crawler) :
  stores_ok self →
  (∀ u, dict_get u (all_known self)
        = match dict_get u (db_perm self) with
          | Some p => Some p
          | None => match dict_get u (db_video self) with
                    | Some v => Some v
                    | None => dict_get u (db_general self)
                    end
          end)
  ∧ (∀ r, r ∈ ui_favorites (get_data_for_ui self) →
          url r ∈ favorite_urls self
          ∧ dict_get (url r) (all_known self) = Some r)
  ∧ (∀ u p, dict_get u (all_known self) = Some p → u ∈ favorite_urls self →
            ∃ q, q ∈ ui_favorites (get_data_for_ui self)
                 ∧ song_key q = song_key p).
Proof.
  intros Hok. pose proof (all_known_ok self Hok) as [Hwf Hkey'].
  pose proof (proj1 (well_keyed_spec _) Hkey') as Hkey.
  destruct Hok as (Hg & [Hv _] & [Hp _]). split_and!.
  - intros u. unfold all_known. by rewrite !dict_get_update.
  - intros r Hr. simpl in Hr. rewrite dedup_unfold in Hr.
    apply dedup_from_elem in Hr as [Hr _].
    apply elem_of_filter_bool in Hr as [Hr Hf].
    apply bool_decide_eq_true in Hf. split; [done|].
    apply dict_values_elem in Hr as [k Hr].
    rewrite (Hkey k r Hr). by apply dict_elem_get.
  - intros u p Hget Hf. simpl. rewrite dedup_unfold.
    apply dedup_from_complete; [|apply not_elem_of_empty].
    apply dict_get_elem in Hget. apply elem_of_filter_bool. split.
    + by apply (dict_elem_values _ u).
    + apply bool_decide_eq_true. by rewrite (Hkey u p Hget).
Qed.

(** ** The extractor *)

Lemma clean_title_Unknown : clean_title s_Unknown = s_Unknown.
Proof. reflexivity. Qed.

(** C10. The title of an extracted record is never empty: it is "Unknown"
    when no candidate segment remains, the sentinel "Unknown Song" when
    cleaning empties the first candidate, and the cleaned first candidate
    otherwise. *)
Theorem parse_song_item_title_nonempty (today : pystr) (it : item)
    (base_url : pystr) (s : song) :
  parse_song_item today it base_url = Some s →
  title s ≠ []
  ∧ ∃ link_tag, item_link it = Some link_tag
    ∧ (candidates_of it link_tag = [] → title s = s_Unknown)
    ∧ (∀ p rest, candidates_of it link_tag = p :: rest →
         (clean_title p = [] → title s = s_Unknown_Song)
         ∧ (clean_title p ≠ [] → title s = clean_title p)).
Proof.
  unfold parse_song_item. destruct (item_link it) as [link_tag|]; [|done].
  destruct (urljoin base_url (default [] (a_href link_tag))) as [u|]; [|done].
  intros [= <-]. simpl. split.
  - case_bool_decide as Ht; [done|]. exact Ht.
  - exists link_tag. split; [done|]. split.
    + intros ->. by rewrite clean_title_Unknown.
    + intros p rest ->. split; intros Hc.
      * by rewrite bool_decide_eq_true_2.
      * by rewrite bool_decide_eq_false_2.
Qed.

(** * Further properties of the code *)

(** ** Stripping *)

Lemma lstrip_by_suffix p s :
  ∃ pre, s = pre ++ lstrip_by p s ∧ Forall (λ c, p c = true) pre.
Proof.
  induction s as [|c r IH]; simpl.
  - by exists [].
  - destruct (p c) eqn:E.
    + destruct IH as (pre & Hr & Hp). exists (c :: pre). split.
      * simpl. by rewrite <- Hr.
      * by constructor.
    + by exists [].
Qed.

Lemma lstrip_by_head p s c r : lstrip_by p s = c :: r → p c = false.
Proof.
  induction s as [|d t IH]; simpl; [done|].
  destruct (p d) eqn:E; [done|]. by intros [= <- _].
Qed.

Lemma lstrip_by_fixed p c r : p c = false → lstrip_by p (c :: r) = c :: r.
Proof. intros H. simpl. by rewrite H. Qed.

Lemma lstrip_by_idemp p s : lstrip_by p (lstrip_by p s) = lstrip_by p s.
Proof.
  destruct (lstrip_by p s) as [|c r] eqn:E; [done|].
  apply lstrip_by_fixed. by apply (lstrip_by_head p s c r).
Qed.

Lemma rstrip_by_prefix p s : ∃ post, s = rstrip_by p s ++ post.
Proof.
  unfold rstrip_by. destruct (lstrip_by_suffix p (reverse s)) as (pre & H & _).
  exists (reverse pre). rewrite <- reverse_app, <- H. by rewrite reverse_involutive.
Qed.

Lemma rstrip_by_idemp p s : rstrip_by p (rstrip_by p s) = rstrip_by p s.
Proof. unfold rstrip_by. by rewrite reverse_involutive, lstrip_by_idemp. Qed.

Lemma lstrip_rstrip p s :
  lstrip_by p s = s → lstrip_by p (rstrip_by p s) = rstrip_by p s.
Proof.
  intros Hs. destruct (rstrip_by_prefix p s) as [post Hpost].
  destruct (rstrip_by p s) as [|c r] eqn:E; [done|].
  apply lstrip_by_fixed. apply (lstrip_by_head p s c (r ++ post)).
  by rewrite Hs, Hpost.
Qed.

Lemma strip_idemp s : strip (strip s) = strip s.
Proof.
  unfold strip. rewrite lstrip_rstrip by apply lstrip_by_idemp.
  apply rstrip_by_idemp.
Qed.

Lemma strip_sublist s : strip s `sublist_of` s.
Proof.
  unfold strip.
  destruct (lstrip_by_suffix is_space s) as (pre & H1 & _).
  destruct (rstrip_by_prefix is_space (lstrip_by is_space s)) as (post & H2).
  rewrite H1 at 2. rewrite H2 at 2.
  apply sublist_inserts_l, sublist_inserts_r. done.
Qed.

(** ** The text files *)

Lemma load_txt_elem f x :
  x ∈ load_txt f → x ≠ [] ∧ strip x = x.
Proof.
  destruct f as [lines|]; simpl; [|by intros ?%elem_of_nil].
  intros (l & -> & Hl)%list_elem_of_fmap.
  apply list_elem_of_In, filter_In in Hl as [_ Hl].
  apply andb_prop in Hl as [Hl _]. apply negb_true_iff, bool_decide_eq_false in Hl.
  split; [done | apply strip_idemp].
Qed.

(** X1. [load_txt] only gives entries that are not empty and carry no
    surrounding whitespace, and as many as the file has lines at most; a
    missing or unreadable file gives the empty list. *)
Theorem load_txt_entries (f : option (list pystr)) :
  Forall (λ x, x ≠ [] ∧ strip x = x) (load_txt f)
  ∧ length (load_txt f) ≤ length (default [] f)
  ∧ load_txt None = [].
Proof.
  split_and!; [| |done].
  - apply Forall_forall. intros x. apply load_txt_elem.
  - destruct f as [lines|]; simpl; [|done].
    rewrite length_fmap. apply filter_length_le.
Qed.

Lemma load_txt_clean (d : list pystr) :
  Forall clean_entry d → load_txt (Some d) = d.
Proof.
  induction 1 as [|x r (Hne & Hs & Hc & _) _ IH]; [done|].
  simpl in *. rewrite Hs, Hc. rewrite bool_decide_eq_false_2 by done. simpl.
  rewrite Hs. f_equal. exact IH.
Qed.

(** X2. The favourites and the followed artists survive a write and a read:
    when the file can be written, [load_txt] after [save_txt] gives back a
    list of clean entries as it was, the empty list included. *)
Theorem load_txt_save_txt (e : env) (d : list pystr) (old : option (list pystr)) :
  env_writable e = true → Forall clean_entry d →
  load_txt (save_txt e d old) = d.
Proof.
  intros Hw Hd. unfold save_txt. rewrite Hw.
  destruct d as [|x r]; [done|]. by apply load_txt_clean.
Qed.

(** ** The toggles *)

Lemma occurrences_app x c1 c2 :
  occurrences x (c1 ++ c2) = occurrences x c1 + occurrences x c2.
Proof. unfold occurrences. by rewrite List.filter_app, length_app. Qed.

Lemma occurrences_cons x y c :
  occurrences x (y :: c) = (if decide (y = x) then 1 else 0) + occurrences x c.
Proof.
  unfold occurrences. simpl. case_bool_decide.
  - by rewrite decide_True.
  - by rewrite decide_False.
Qed.

Lemma occurrences_zero x c : occurrences x c = 0 ↔ x ∉ c.
Proof.
  induction c as [|y r IH]; [split; [intros _ ?%elem_of_nil | ]; done|].
  rewrite occurrences_cons, not_elem_of_cons.
  destruct (decide (y = x)) as [->|Hne]; simpl.
  - split; [done | by intros [? _]].
  - rewrite IH. split; [by intros ?; split | by intros [_ ?]].
Qed.

Lemma occurrences_remove_first x y c :
  occurrences y (list_remove_first x c)
  = if decide (y = x) then pred (occurrences x c) else occurrences y c.
Proof.
  induction c as [|z r IH]; simpl.
  - by destruct (decide (y = x)).
  - destruct (decide (x = z)) as [<-|Hne].
    + rewrite !occurrences_cons. repeat case_decide; simplify_eq; simpl; lia.
    + rewrite !occurrences_cons, IH. repeat case_decide; simplify_eq; simpl; lia.
Qed.

Lemma occurrences_toggle x y c :
  occurrences y (toggle x c)
  = if decide (y = x)
    then (if decide (x ∈ c) then pred (occurrences x c) else 1)
    else occurrences y c.
Proof.
  unfold toggle. case_bool_decide as Hin.
  - rewrite occurrences_remove_first.
    repeat case_decide; simplify_eq; try done; lia.
  - rewrite occurrences_app, occurrences_cons.
    change (occurrences y []) with 0.
    pose proof (proj2 (occurrences_zero x c) Hin) as Hz.
    repeat case_decide; simplify_eq; try done; lia.
Qed.

(** X3. The favourite and follow toggles work on the list read from the file:
    one occurrence of the value is removed if there is one, else the value
    is added once, and no other entry changes. So a value listed at most
    once changes sides, while a value listed twice stays listed after a
    toggle. The stores are not touched. *)
Theorem api_toggles (e : env) (x : pystr) (self : crawler) (fs : data_dir) :
  let count_after (before after : list pystr) :=
    ∀ y, occurrences y after
         = if decide (y = x)
           then (if decide (x ∈ before) then pred (occurrences x before) else 1)
           else occurrences y before in
  let fav := api_favorite e x self fs in
  let fol := api_follow e x self fs in
  count_after (load_txt (FAVORITES_FILE fs)) (favorite_urls fav.1)
  ∧ count_after (load_txt (ARTISTS_FILE fs)) (followed_artists fol.1)
  ∧ (x ∈ favorite_urls fav.1 ↔ occurrences x (load_txt (FAVORITES_FILE fs)) ≠ 1)
  ∧ (x ∈ followed_artists fol.1 ↔ occurrences x (load_txt (ARTISTS_FILE fs)) ≠ 1)
  ∧ (db_general fav.1, db_video fav.1, db_perm fav.1)
    = (db_general self, db_video self, db_perm self)
  ∧ (db_general fol.1, db_video fol.1, db_perm fol.1)
    = (db_general self, db_video self, db_perm self).
Proof.
  assert (Hpos : ∀ l, x ∈ l ↔ occurrences x l ≠ 0).
  { intros l. pose proof (occurrences_zero x l) as Hz.
    destruct (decide (x ∈ l)) as [H|H].
    - split; [|done]. intros _ E. by apply Hz in E.
    - split; [done|]. intros E. destruct E. by apply Hz. }
  assert (Hmem : ∀ c, x ∈ toggle x c ↔ occurrences x c ≠ 1).
  { intros c. rewrite Hpos, occurrences_toggle.
    destruct (decide (x = x)) as [_|]; [|done].
    destruct (decide (x ∈ c)) as [H|H].
    - apply Hpos in H. lia.
    - apply occurrences_zero in H. lia. }
  simpl. split_and!; try done.
  - intros y. apply occurrences_toggle.
  - intros y. apply occurrences_toggle.
Qed.

Lemma startswith_refl x : startswith x x = true.
Proof. induction x as [|c r IH]; simpl; [done|]. by rewrite N.eqb_refl. Qed.

Lemma contains_refl x : contains x x = true.
Proof. destruct x; simpl; [done|]. by rewrite N.eqb_refl, startswith_refl. Qed.

(** X4. Following an artist by the button of a card marks every card of that
    artist: after [api_follow] on a name that the file did not list,
    [highlight] holds for each record with that artist. *)
Theorem api_follow_highlights (e : env) (a : pystr) (self : crawler)
    (fs : data_dir) (s : song) :
  a ∉ load_txt (ARTISTS_FILE fs) → artist s = a →
  let r := api_follow e a self fs in
  a ∈ followed_artists r.1 ∧ highlight r.1 s = true.
Proof.
  intros Hin Ha. simpl. unfold toggle.
  rewrite bool_decide_eq_false_2 by done. split.
  - apply elem_of_app. right. by left.
  - unfold highlight, is_followed. simpl.
    rewrite existsb_app. simpl. by rewrite Ha, contains_refl, orb_true_r.
Qed.

(** ** Deduplication of a concatenation *)

Lemma dedup_from_filter (S T : gset (pystr * pystr)) ys :
  dedup_from (S ∪ T) ys
  = List.filter (λ y, bool_decide (song_key y ∉ S)) (dedup_from T ys).
Proof.
  revert T. induction ys as [|y r IH]; intros T; simpl; [done|].
  destruct (decide (song_key y ∈ T)) as [HT|HT].
  - rewrite decide_True by set_solver. apply IH.
  - simpl. destruct (decide (song_key y ∈ S)) as [HS|HS].
    + rewrite decide_True by set_solver.
      rewrite bool_decide_eq_false_2 by (intros H; by apply H).
      rewrite <- IH. f_equal. set_solver.
    + rewrite decide_False by set_solver.
      rewrite bool_decide_eq_true_2 by done.
      rewrite <- IH. do 2 f_equal. set_solver.
Qed.

Lemma dedup_length seen xs : length (dedup_from seen xs) ≤ length xs.
Proof. apply sublist_length, dedup_from_sublist. Qed.

Lemma dedup_keys xs k :
  k ∈ song_key <$> deduplicate_songs xs ↔ k ∈ song_key <$> xs.
Proof.
  rewrite dedup_unfold. split.
  - intros (x & -> & Hx)%list_elem_of_fmap.
    apply dedup_from_elem in Hx as [Hx _]. by apply list_elem_of_fmap_2.
  - intros (x & -> & Hx)%list_elem_of_fmap.
    destruct (dedup_from_complete ∅ xs x Hx) as (y & Hy & <-); [set_solver|].
    by apply list_elem_of_fmap_2.
Qed.

(** X5. Deduplication of two lists in a row keeps the survivors of the first
    list and, of the survivors of the second, those whose key the first list
    does not have; so a list may be deduplicated before more records are
    put behind it, and the output is never longer than the input. *)
Theorem deduplicate_songs_app (xs ys : list song) :
  deduplicate_songs (xs ++ ys)
  = deduplicate_songs xs
    ++ List.filter (λ y, bool_decide (song_key y ∉ song_key <$> xs))
                   (deduplicate_songs ys)
  ∧ deduplicate_songs (deduplicate_songs xs ++ ys) = deduplicate_songs (xs ++ ys)
  ∧ length (deduplicate_songs xs) ≤ length xs.
Proof.
  assert (Happ : ∀ l, deduplicate_songs (l ++ ys)
    = deduplicate_songs l
      ++ List.filter (λ y, bool_decide (song_key y ∉ song_key <$> l))
                     (deduplicate_songs ys)).
  { intros l. rewrite !dedup_unfold, dedup_from_app, dedup_from_filter.
    f_equal. apply List.filter_ext. intros y.
    apply bool_decide_ext. by rewrite elem_of_keys_of. }
  split_and!.
  - apply Happ.
  - rewrite !Happ. f_equal.
    + rewrite (dedup_unfold (deduplicate_songs xs)).
      apply dedup_from_id; [|intros x _; apply not_elem_of_empty].
      rewrite dedup_unfold. apply dedup_from_NoDup.
    + apply List.filter_ext. intros y. apply bool_decide_ext.
      by rewrite dedup_keys.
  - rewrite dedup_unfold. apply dedup_length.
Qed.

(** X6. [deduplicate_songs] gives back its input exactly when the keys of the
    input are pairwise distinct. *)
Theorem deduplicate_songs_fixed_iff (xs : list song) :
  deduplicate_songs xs = xs ↔ NoDup (song_key <$> xs).
Proof.
  rewrite dedup_unfold. split.
  - intros E. rewrite <- E. apply dedup_from_NoDup.
  - intros H. apply dedup_from_id; [done|]. intros x _. apply not_elem_of_empty.
Qed.

(** ** The extractor, further *)

Lemma omap_length {A B} (f : A → option B) (l : list A) :
  length (omap f l) ≤ length l.
Proof.
  induction l as [|x r IH]; csimpl; [done|].
  destruct (f x); simpl; lia.
Qed.

(** X7. Only the first 100 items of the page are looked at: the result has at
    most 100 records and no more than there are items, it is the result for
    the first 100 items, and its records are exactly the records of those
    items that parse. *)
Theorem parse_items_first_hundred (today : pystr) (items : list item) :
  length (parse_items today items) ≤ 100 `min` length items
  ∧ parse_items today items = parse_items today (take 100 items)
  ∧ ∀ r, r ∈ parse_items today items
         ↔ ∃ it, it ∈ take 100 items
                 ∧ parse_song_item today it NEW_URL = Some r.
Proof.
  unfold parse_items. split_and!.
  - etrans; [apply omap_length|]. by rewrite length_take.
  - rewrite take_take. done.
  - intros r. rewrite list_elem_of_omap. done.
Qed.


Lemma re_sub_go_sublist skip s : re_sub_go skip s `sublist_of` s.
Proof.
  revert skip. induction s as [|c r IH]; intros skip; simpl; [done|].
  destruct skip as [|k]; [|by apply sublist_cons].
  destruct (clean_match (c :: r)); [by apply sublist_cons | by apply sublist_skip].
Qed.

Lemma lstrip_by_sublist p s : lstrip_by p s `sublist_of` s.
Proof.
  destruct (lstrip_by_suffix p s) as (pre & H & _). rewrite H at 2.
  by apply sublist_inserts_l.
Qed.

(** X9. The cleaning of a title only deletes characters: the cleaned title is a
    subsequence of the raw one and carries no surrounding whitespace. *)
Theorem clean_title_only_deletes (raw_title : pystr) :
  clean_title raw_title `sublist_of` raw_title
  ∧ strip (clean_title raw_title) = clean_title raw_title.
Proof.
  unfold clean_title. split; [|apply strip_idemp].
  etrans; [apply strip_sublist|]. etrans; [apply lstrip_by_sublist|].
  etrans; [apply strip_sublist|]. apply re_sub_go_sublist.
Qed.

(** Cleaning once may leave a noise token that the deletions put together. *)
Example re_sub_clean_not_idempotent :
  re_sub_clean (py "NENEWW") = py "NEW"
  ∧ re_sub_clean (re_sub_clean (py "NENEWW")) = [].
Proof. split; reflexivity. Qed.

(** X10. The fields of an extracted record: title, artist and tags carry no
    surrounding whitespace, the two flags say whether a tag of the record
    holds the piano or the video marker, the date is the day of the crawl
    and the URL is what [urljoin] made of the link. *)
Theorem parse_song_item_fields (today : pystr) (it : item)
    (base_url : pystr) (s : song) :
  parse_song_item today it base_url = Some s →
  strip (title s) = title s
  ∧ strip (artist s) = artist s
  ∧ Forall (λ t, strip t = t) (tags s)
  ∧ is_piano s = existsb (contains s_piano) (tags s)
  ∧ is_video s = existsb (contains s_video) (tags s)
  ∧ discovered_at s = today
  ∧ ∃ link_tag, item_link it = Some link_tag
      ∧ urljoin base_url (default [] (a_href link_tag)) = Some (url s).
Proof.
  unfold parse_song_item. destruct (item_link it) as [link_tag|]; [|done].
  destruct (urljoin base_url (default [] (a_href link_tag))) as [u|] eqn:Eu;
    [|done].
  intros [= <-]. simpl. split_and!; try done.
  - case_bool_decide; [done|]. apply strip_idemp.
  - unfold artist_of. destruct (item_artist it) as [t|].
    + destruct (startswith s_hyphen (strip t)); apply strip_idemp.
    + done.
  - apply Forall_fmap, Forall_forall. intros t _. apply strip_idemp.
  - by exists link_tag.
Qed.

(** ** Routing, further *)


(** ** The permanent store *)

Lemma dict_set_length_ge k v d : length d ≤ length (dict_set k v d).
Proof.
  induction d as [|[k' v'] r IH]; simpl; [lia|].
  destruct (decide (k = k')); simpl; lia.
Qed.

Lemma dict_add_songs_length_ge d l : length d ≤ length (dict_add_songs d l).
Proof.
  unfold dict_add_songs. revert d. induction l as [|s r IH]; intros d; simpl; [done|].
  etrans; [apply (dict_set_length_ge (url s) s)|]. apply IH.
Qed.

Lemma last_with_url_None u l :
  Forall (λ s, url s ≠ u) l → last_with_url u l = None.
Proof.
  intros H. unfold last_with_url. apply last_None.
  induction H as [|s r Hs _ IH]; simpl; [done|].
  by rewrite bool_decide_eq_false_2.
Qed.

(** X13. The permanent store only grows in a merge: it never has fewer records,
    a URL it has stays bound, the record of a URL stays as it was unless a
    scraped record of that URL is sent to the store, and a record found
    there after the merge was there before or was scraped and sent there. *)
Theorem scrape_merge_perm_grows (e : env) (scraped : list song)
    (self : crawler) (fs : data_dir) (u : pystr) :
  let perm' := db_perm (scrape_merge e scraped self fs).1 in
  let sent := List.filter (to_perm (followed_artists self)) scraped in
  length (db_perm self) ≤ length perm'
  ∧ (is_Some (dict_get u (db_perm self)) → is_Some (dict_get u perm'))
  ∧ (Forall (λ s, url s ≠ u) sent → dict_get u perm' = dict_get u (db_perm self))
  ∧ (∀ r, dict_get u perm' = Some r →
          dict_get u (db_perm self) = Some r ∨ (r ∈ sent ∧ url r = u)).
Proof.
  simpl. rewrite scrape_merge_perm, dict_get_add_songs. split_and!.
  - apply dict_add_songs_length_ge.
  - intros [r Hr]. rewrite Hr. by destruct (last_with_url u _).
  - intros H. by rewrite last_with_url_None.
  - intros r. destruct (last_with_url u _) as [x|] eqn:E; simpl.
    + intros [= ->]. right. by apply last_with_url_elem in E.
    + by left.
Qed.

(** X14. Records of followed artists: a scraped record that is not a piano
    record, whose artist matches a followed pattern and whose URL no other
    scraped record has, is stored in the permanent store if it is not a
    video record; if it is a video record the permanent store keeps what it
    had under that URL. *)
Theorem followed_routing (e : env) (scraped : list song) (self : crawler)
    (fs : data_dir) (s : song) :
  s ∈ scraped → is_piano s = false →
  is_followed (followed_artists self) s = true →
  Forall (λ r, url r = url s → r = s) scraped →
  dict_get (url s) (db_perm (scrape_merge e scraped self fs).1)
  = if is_video s then dict_get (url s) (db_perm self) else Some s.
Proof.
  intros Hs Hp Hf Hu. pose proof (proj1 (Forall_forall _ _) Hu) as Hu'.
  rewrite scrape_merge_perm, dict_get_add_songs.
  destruct (is_video s) eqn:Hv.
  - rewrite last_with_url_None; [done|].
    apply Forall_forall. intros r [Hr Ht]%elem_of_filter_bool E.
    rewrite (Hu' r Hr E) in Ht. unfold to_perm in Ht.
    by rewrite Hp, Hv in Ht.
  - rewrite last_with_url_unique; [done| |].
    + apply elem_of_filter_bool. split; [done|]. unfold to_perm.
      by rewrite Hp, Hv, Hf.
    + intros r [? _]%elem_of_filter_bool. by apply Hu'.
Qed.

(** ** Merging the same crawl again *)

Lemma dict_ext (d1 d2 : pydict) :
  NoDup d1.*1 → d1.*1 = d2.*1 →
  (∀ k, dict_get k d1 = dict_get k d2) → d1 = d2.
Proof.
  revert d2. induction d1 as [|[k v] r IH]; intros [|[k' v'] r']; csimpl;
    try done.
  intros [Hk Hr]%NoDup_cons [= <- Hkeys] Hget.
  pose proof (Hget k) as Hv. simpl in Hv. rewrite !decide_True in Hv by done.
  injection Hv as <-. f_equal. apply IH; [done..|].
  intros j. destruct (decide (j = k)) as [->|Hne].
  - rewrite (proj2 (dict_get_None k r)) by done.
    symmetry. apply dict_get_None. by rewrite <- Hkeys.
  - specialize (Hget j). simpl in Hget. by rewrite !decide_False in Hget.
Qed.

Lemma dict_add_songs_keys_present d l :
  Forall (λ s, url s ∈ d.*1) l → (dict_add_songs d l).*1 = d.*1.
Proof.
  unfold dict_add_songs. revert d.
  induction l as [|s r IH]; intros d H; simpl; [done|].
  apply Forall_cons in H as [Hs Hr].
  assert (Hk : (dict_set (url s) s d).*1 = d.*1).
  { rewrite dict_set_keys. by rewrite decide_True. }
  rewrite IH; [done|]. by rewrite Hk.
Qed.

Lemma dict_add_songs_idemp d l :
  dict_wf d → dict_add_songs (dict_add_songs d l) l = dict_add_songs d l.
Proof.
  intros Hd. apply dict_ext.
  - apply dict_add_songs_wf, dict_add_songs_wf, Hd.
  - apply dict_add_songs_keys_present, Forall_forall. intros s Hs.
    destruct (decide (url s ∈ (dict_add_songs d l).*1)) as [|Hn]; [done|].
    apply dict_get_None in Hn. rewrite dict_get_add_songs in Hn.
    destruct (last_with_url_is_Some l s Hs) as [x Hx]. by rewrite Hx in Hn.
  - intros k. rewrite !dict_get_add_songs. by destruct (last_with_url k l).
Qed.

Lemma dedup_from_all_seen seen l :
  Forall (λ x, song_key x ∈ seen) l → dedup_from seen l = [].
Proof.
  induction 1 as [|x r Hx _ IH]; simpl; [done|]. by rewrite decide_True.
Qed.

Lemma kept_again cap (new old : list song) :
  let kept := take cap (deduplicate_songs (new ++ old)) in
  take cap (deduplicate_songs (new ++ kept)) = kept.
Proof.
  simpl. rewrite !dedup_unfold, !dedup_from_app.
  set (S := keys_of new ∪ ∅). set (DN := dedup_from ∅ new).
  set (O := dedup_from S old).
  rewrite (take_app DN O). set (T := take (cap - length DN) O).
  assert (HT : dedup_from S (take cap DN ++ T) = T).
  { rewrite dedup_from_app, dedup_from_all_seen.
    - simpl. apply dedup_from_id.
      + apply (sublist_NoDup _ (song_key <$> O)); [apply dedup_from_NoDup|].
        apply fmap_sublist, sublist_take.
      + intros x Hx. assert (HxO : x ∈ O).
        { eapply elem_of_sublist; [exact Hx | apply sublist_take]. }
        apply dedup_from_elem in HxO as [_ HxS].
        rewrite elem_of_union, elem_of_keys_of. intros [Hin|Hin]; [|done].
        apply HxS. unfold S. rewrite elem_of_union, elem_of_keys_of. left.
        apply list_elem_of_fmap in Hin as (y & -> & Hy).
        apply list_elem_of_fmap_2.
        assert (HyD : y ∈ DN).
        { eapply elem_of_sublist; [exact Hy | apply sublist_take]. }
        by apply dedup_from_elem in HyD as [? _].
    - apply Forall_forall. intros y Hy.
      assert (HyD : y ∈ DN).
      { eapply elem_of_sublist; [exact Hy | apply sublist_take]. }
      apply dedup_from_elem in HyD as [HyN _].
      unfold S. rewrite elem_of_union, elem_of_keys_of. left.
      by apply list_elem_of_fmap_2. }
  rewrite HT, take_app. f_equal. apply take_ge. unfold T.
  rewrite length_take. lia.
Qed.

Lemma url_fixes_key_spec l :
  url_fixes_key l ↔
  ∀ x y, x ∈ l → y ∈ l → url x = url y → song_key x = song_key y.
Proof.
  unfold url_fixes_key. rewrite Forall_forall. split.
  - intros H x y Hx Hy. specialize (H x Hx).
    rewrite Forall_forall in H. by apply H.
  - intros H x Hx. apply Forall_forall. intros y Hy. by apply H.
Qed.

Lemma kept_urls_distinct cap (l : list song) :
  url_fixes_key l → NoDup (url <$> take cap (deduplicate_songs l)).
Proof.
  intros Hl. pose proof (proj1 (url_fixes_key_spec l) Hl) as Hfix.
  pose proof (kept_NoDup cap l) as Hnd.
  apply NoDup_fmap_2_strong; [|by apply NoDup_fmap_1 in Hnd].
  intros x y Hx Hy E. apply (key_unique _ _ _ Hnd Hx Hy).
  apply Hfix; [by apply (kept_elem cap) | by apply (kept_elem cap) | done].
Qed.

Lemma merged_again cap (new : list song) (old : pydict) :
  url_fixes_key (new ++ dict_values old) →
  let merged := dict_of_songs (take cap (deduplicate_songs (new ++ dict_values old))) in
  dict_of_songs (take cap (deduplicate_songs (new ++ dict_values merged)))
  = merged.
Proof.
  intros Hfix. simpl.
  set (K := take cap (deduplicate_songs (new ++ dict_values old))).
  assert (Hval : dict_values (dict_of_songs K) = K).
  { rewrite dict_of_songs_distinct by by apply kept_urls_distinct.
    unfold dict_values. apply pairs_values. }
  rewrite Hval. f_equal. apply kept_again.
Qed.

(** X16. The merge is idempotent: when among the candidates and the stored
    records of the general store, and of the video store, a URL goes with
    one (title, artist) key, merging the same scraped records a second time
    leaves the three stores and the two lists as the first merge left
    them. *)
Theorem scrape_merge_idempotent (e e' : env) (scraped : list song)
    (self : crawler) (fs : data_dir) :
  dict_wf (db_perm self) →
  url_fixes_key (List.filter to_general scraped ++ dict_values (db_general self)) →
  url_fixes_key (List.filter to_video scraped ++ dict_values (db_video self)) →
  let once := scrape_merge e scraped self fs in
  (scrape_merge e' scraped once.1 once.2).1 = once.1.
Proof.
  intros Hp Hg Hv. simpl.
  pose proof (scrape_merge_general e scraped self fs) as Eg.
  pose proof (scrape_merge_video e scraped self fs) as Ev.
  pose proof (scrape_merge_perm e scraped self fs) as Ep.
  assert (Ef : followed_artists (scrape_merge e scraped self fs).1
               = followed_artists self) by by rewrite scrape_merge_stores.
  destruct (scrape_merge e scraped self fs) as [s1 fs1]. simpl in *.
  rewrite (scrape_merge_stores e' scraped s1 fs1), !route_eq. simpl.
  rewrite Ef, Eg, Ev, Ep.
  rewrite !merged_again by done. rewrite dict_add_songs_idemp by done.
  rewrite <- Eg, <- Ev, <- Ep, <- Ef. by destruct s1.
Qed.

(** ** The capped stores along a run *)

Lemma well_keyed_urls d : well_keyed d → url <$> dict_values d = d.*1.
Proof.
  unfold well_keyed, dict_values. induction 1 as [|[k v] r Hk _ IH]; csimpl; [done|].
  simpl in Hk. by rewrite Hk, IH.
Qed.

Lemma well_keyed_pairs d : well_keyed d → (λ s, (url s, s)) <$> dict_values d = d.
Proof.
  unfold well_keyed, dict_values. induction 1 as [|[k v] r Hk _ IH]; csimpl; [done|].
  simpl in Hk. by rewrite Hk, IH.
Qed.

Lemma store_ok_urls_distinct d : store_ok d → NoDup (url <$> dict_values d).
Proof. intros [Hwf Hk]. by rewrite well_keyed_urls. Qed.

Lemma dict_of_songs_values_id d : store_ok d → dict_of_songs (dict_values d) = d.
Proof.
  intros Hd. rewrite dict_of_songs_distinct by by apply store_ok_urls_distinct.
  apply well_keyed_pairs, Hd.
Qed.

Lemma tidy_nil cap cls : tidy cap cls [].
Proof. split_and!; [simpl; lia | apply NoDup_nil_2 | apply Forall_nil_2]. Qed.

Lemma merged_tidy cap cls (new : list song) (old : pydict) :
  Forall (λ s, cls s = true) new →
  Forall (λ s, cls s = true) (dict_values old) →
  tidy cap cls (dict_of_songs (take cap (deduplicate_songs (new ++ dict_values old)))).
Proof.
  intros Hn Ho. set (K := take cap (deduplicate_songs (new ++ dict_values old))).
  split_and!.
  - etrans; [apply dict_of_songs_length|]. unfold K. rewrite length_take. lia.
  - pose proof (store_ok_urls_distinct _ (store_ok_of_songs K)) as Hu.
    apply NoDup_fmap_2_strong; [|by apply NoDup_fmap_1 in Hu].
    intros x y Hx%dict_of_songs_values Hy%dict_of_songs_values E.
    by apply (key_unique K x y (kept_NoDup cap _)).
  - apply Forall_forall. intros s [Hs|Hs]%merged_values.
    + by apply (proj1 (Forall_forall _ _) Hn).
    + by apply (proj1 (Forall_forall _ _) Ho).
Qed.

Lemma filter_Forall (f : song → bool) l : Forall (λ s, f s = true) (List.filter f l).
Proof. apply Forall_forall. by intros s [_ ?]%elem_of_filter_bool. Qed.

Lemma scrape_merge_tidy e scraped self fs :
  run_tidy self fs →
  run_tidy (scrape_merge e scraped self fs).1 (scrape_merge e scraped self fs).2.
Proof.
  intros ((_ & _ & Hg) & (_ & _ & Hv) & Hfg & Hfv).
  assert (Hg' : tidy 50 to_general (db_general (scrape_merge e scraped self fs).1)).
  { rewrite scrape_merge_general. apply merged_tidy; [apply filter_Forall | done]. }
  assert (Hv' : tidy 20 to_video (db_video (scrape_merge e scraped self fs).1)).
  { rewrite scrape_merge_video. apply merged_tidy; [apply filter_Forall | done]. }
  assert (Hfs : DB_GENERAL (scrape_merge e scraped self fs).2
                = save_json e (db_general (scrape_merge e scraped self fs).1) (DB_GENERAL fs)
              ∧ DB_VIDEO (scrape_merge e scraped self fs).2
                = save_json e (db_video (scrape_merge e scraped self fs).1) (DB_VIDEO fs)).
  { unfold scrape_merge.
    by destruct (route (followed_artists self) scraped (db_perm self)) as [[g v] p]. }
  destruct Hfs as [E1 E2]. unfold run_tidy. rewrite E1, E2.
  split_and!; try done; save_json_split; done.
Qed.

Lemma add_url_manually_tidy e o u self fs :
  run_tidy self fs →
  run_tidy (add_url_manually e o u self fs).1 (add_url_manually e o u self fs).2.
Proof.
  intros H. unfold add_url_manually.
  destruct (not_html (fetch_page o)); [exact H | exact H].
Qed.

Lemma index_backfill_tidy e fetch self fs :
  run_tidy self fs →
  run_tidy (index_backfill e fetch self fs).1 (index_backfill e fetch self fs).2.
Proof.
  unfold index_backfill.
  generalize (List.filter (λ u, negb (dict_mem u (db_perm self))) (favorite_urls self)).
  intros l. revert self fs. induction l as [|u r IH]; intros self fs H; simpl; [done|].
  destruct (add_url_manually e (fetch u) u self fs) as [self' fs'] eqn:E.
  apply IH. pose proof (add_url_manually_tidy e (fetch u) u self fs H) as H'.
  by rewrite E in H'.
Qed.

(** Every state of a run from a first start satisfies [run_tidy]. *)
Lemma reachable_tidy self fs : reachable self fs → run_tidy self fs.
Proof.
  induction 1 as [|self fs _ IH|e o self fs _ IH|e o u self fs _ IH
                  |e a self fs _ IH|e u self fs _ IH|e fetch self fs _ IH].
  - unfold run_tidy, init; simpl. split_and!; apply tidy_nil.
  - destruct IH as (_ & _ & Hfg & Hfv). by split_and!.
  - unfold scrape_all. simpl. destruct (not_html (fetch_page o)); [exact IH|].
    apply scrape_merge_tidy. exact IH.
  - by apply add_url_manually_tidy.
  - exact IH.
  - exact IH.
  - by apply index_backfill_tidy.
Qed.

(** X20. In every state of a run from a first start the general store holds at
    most 50 records and the video store at most 20, the records of each
    have pairwise distinct (title, artist) keys, the general store holds
    no piano and no video record, and the video store holds video records
    that are not piano records. *)
Theorem reachable_capped_stores (self : crawler) (fs : data_dir) :
  reachable self fs →
  length (db_general self) ≤ 50 ∧ length (db_video self) ≤ 20
  ∧ NoDup (song_key <$> dict_values (db_general self))
  ∧ NoDup (song_key <$> dict_values (db_video self))
  ∧ Forall (λ s, is_piano s = false ∧ is_video s = false) (dict_values (db_general self))
  ∧ Forall (λ s, is_piano s = false ∧ is_video s = true) (dict_values (db_video self)).
Proof.
  intros ((Hg1 & Hg2 & Hg3) & (Hv1 & Hv2 & Hv3) & _)%reachable_tidy.
  split_and!; try done.
  - eapply Forall_impl; [exact Hg3|]. intros s H. unfold to_general in H.
    by destruct (is_piano s), (is_video s).
  - eapply Forall_impl; [exact Hv3|]. intros s H. unfold to_video in H.
    by destruct (is_piano s), (is_video s).
Qed.

Lemma store_ok_lookup d r :
  store_ok d → (r ∈ dict_values d ↔ dict_get (url r) d = Some r).
Proof.
  intros [Hwf Hk]. pose proof (proj1 (well_keyed_spec _) Hk) as Hk'. split.
  - intros [k Hr]%dict_values_elem. rewrite (Hk' k r Hr). by apply dict_elem_get.
  - intros H%dict_get_elem. by apply (dict_elem_values _ (url r)).
Qed.

(** X21. In every state of a run from a first start each of the three stores has
    one record per URL, and looking up the URL of a record finds a record
    of the store exactly when it is that record. *)
Theorem reachable_url_unique (self : crawler) (fs : data_dir) :
  reachable self fs →
  Forall (λ d, NoDup (url <$> dict_values d)
               ∧ ∀ r, r ∈ dict_values d ↔ dict_get (url r) d = Some r)
         [db_general self; db_video self; db_perm self].
Proof.
  intros ((Hg & Hv & Hp) & _)%reachable_inv.
  assert (Hone : ∀ d, store_ok d →
    NoDup (url <$> dict_values d)
    ∧ ∀ r, r ∈ dict_values d ↔ dict_get (url r) d = Some r).
  { intros d Hd. split; [by apply store_ok_urls_distinct|].
    intros r. by apply store_ok_lookup. }
  apply Forall_cons. split; [by apply Hone|].
  apply Forall_cons. split; [by apply Hone|].
  apply Forall_cons. split; [by apply Hone | apply Forall_nil_2].
Qed.

Lemma tidy_merge_nothing cap cls d :
  store_ok d → tidy cap cls d →
  dict_of_songs (take cap (deduplicate_songs ([] ++ dict_values d))) = d.
Proof.
  intros Hd (Hlen & Hnd & _). simpl.
  rewrite dedup_unfold, dedup_from_id;
    [|done|intros x _; apply not_elem_of_empty].
  rewrite take_ge by (unfold dict_values; by rewrite length_fmap).
  by apply dict_of_songs_values_id.
Qed.

(** X18. A crawl that yields no record changes no store: in every state of a run
    from a first start, when the fetch fails, the body is empty, or none of
    the items of the page parses, the three stores after [scrape_all] are
    the stores before it. *)
Theorem scrape_all_nothing_scraped (e : env) (o : outcome) (self : crawler)
    (fs : data_dir) :
  reachable self fs →
  not_html (fetch_page o) = true
  ∨ parse_items (env_today e) (listing_items (default [] (fetch_page o))) = [] →
  let self' := (scrape_all e o self fs).1 in
  db_general self' = db_general self ∧ db_video self' = db_video self
  ∧ db_perm self' = db_perm self.
Proof.
  intros Hr Hno. unfold scrape_all. simpl.
  destruct (not_html (fetch_page o)); [done|].
  destruct Hno as [|Hno]; [done|]. rewrite Hno.
  rewrite scrape_merge_general, scrape_merge_video, scrape_merge_perm. simpl.
  pose proof (reachable_inv _ _ Hr) as ((Hg & Hv & _) & _).
  pose proof (reachable_tidy _ _ Hr) as (Tg & Tv & _).
  split_and!; [by apply (tidy_merge_nothing 50 to_general)
              | by apply (tidy_merge_nothing 20 to_video) | done].
Qed.

(** X19. After a full crawl whose page was fetched and whose files could be
    written, the files hold the state in memory: a restart ([__init__] on
    the data directory) gives the crawler as the crawl left it. *)
Theorem scrape_all_then_restart (e : env) (o : outcome) (self : crawler)
    (fs : data_dir) :
  env_writable e = true → not_html (fetch_page o) = false →
  init (scrape_all e o self fs).2 = (scrape_all e o self fs).1.
Proof.
  intros Hw Ho. unfold scrape_all. simpl. rewrite Ho.
  unfold scrape_merge. simpl.
  destruct (route _ _ _) as [[g v] p]. unfold init, save_json. simpl.
  by rewrite Hw.
Qed.

(** ** Manual add and the backfill of the page *)

Lemma dict_mem_spec k d : dict_mem k d = true ↔ is_Some (dict_get k d).
Proof. unfold dict_mem. apply bool_decide_eq_true. Qed.

Lemma add_url_manually_perm e o u self fs k x :
  dict_get k (db_perm self) = Some x →
  dict_get k (db_perm (add_url_manually e o u self fs).1) = Some x.
Proof.
  intros Hk. unfold add_url_manually.
  destruct (not_html (fetch_page o)); [done|]. simpl.
  destruct (dict_mem u (db_perm self)) eqn:Hm; [done|].
  rewrite dict_get_set. destruct (decide (k = u)) as [->|]; [|done].
  assert (dict_mem u (db_perm self) = true) as Ht; [|by rewrite Ht in Hm].
  apply dict_mem_spec. by rewrite Hk.
Qed.

Lemma add_url_manually_bound e o u self fs :
  not_html (fetch_page o) = false →
  is_Some (dict_get u (db_perm (add_url_manually e o u self fs).1)).
Proof.
  intros Ho. unfold add_url_manually. rewrite Ho. simpl.
  destruct (dict_mem u (db_perm self)) eqn:Hm.
  - by apply dict_mem_spec.
  - rewrite dict_get_set, decide_True by done. by eexists.
Qed.

(** X22. Manual add never overwrites: whatever the fetch gives, a record that
    the permanent store holds under some URL is still there afterwards, and
    the general store, the video store, the followed artists and their
    files are not touched. When the fetch fails or the body is empty nothing
    at all changes; otherwise the URL has a record in the permanent store
    afterwards. *)
Theorem add_url_manually_frame (e : env) (o : outcome) (u : pystr)
    (self : crawler) (fs : data_dir) :
  let r := add_url_manually e o u self fs in
  (∀ k x, dict_get k (db_perm self) = Some x → dict_get k (db_perm r.1) = Some x)
  ∧ (db_general r.1, db_video r.1, followed_artists r.1)
    = (db_general self, db_video self, followed_artists self)
  ∧ (ARTISTS_FILE r.2, DB_GENERAL r.2, DB_VIDEO r.2)
    = (ARTISTS_FILE fs, DB_GENERAL fs, DB_VIDEO fs)
  ∧ (not_html (fetch_page o) = true → r = (self, fs))
  ∧ (not_html (fetch_page o) = false → is_Some (dict_get u (db_perm r.1))).
Proof.
  simpl. split_and!.
  - intros k x. apply add_url_manually_perm.
  - unfold add_url_manually. by destruct (not_html (fetch_page o)).
  - unfold add_url_manually. by destruct (not_html (fetch_page o)).
  - intros Ho. unfold add_url_manually. by rewrite Ho.
  - apply add_url_manually_bound.
Qed.

Lemma backfill_fold e (fetch : pystr → outcome) l self fs :
  (∀ u, not_html (fetch_page (fetch u)) = false) →
  let r := foldl (λ st u, add_url_manually e (fetch u) u st.1 st.2) (self, fs) l in
  favorite_urls r.1 = favorite_urls self ++ l
  ∧ (∀ k x, dict_get k (db_perm self) = Some x → dict_get k (db_perm r.1) = Some x)
  ∧ Forall (λ u, is_Some (dict_get u (db_perm r.1))) l.
Proof.
  intros Hf. revert self fs. induction l as [|u t IH]; intros self fs; simpl.
  - split_and!; [by rewrite app_nil_r | done | apply Forall_nil_2].
  - assert (Ha : favorite_urls (add_url_manually e (fetch u) u self fs).1
                 = favorite_urls self ++ [u]).
    { unfold add_url_manually. by rewrite (Hf u). }
    pose proof (add_url_manually_bound e (fetch u) u self fs (Hf u)) as Hb.
    destruct (add_url_manually e (fetch u) u self fs) as [s1 fs1] eqn:E.
    destruct (IH s1 fs1) as (I1 & I2 & I3). simpl in *.
    split_and!.
    + rewrite I1, Ha, <- app_assoc. done.
    + intros k x Hk. apply I2.
      pose proof (add_url_manually_perm e (fetch u) u self fs k x Hk) as H.
      by rewrite E in H.
    + apply Forall_cons. split; [|done].
      destruct Hb as [x Hx]. exists x. by apply I2.
Qed.

(** X24. The page load fills in the favourites that have no record: when every
    fetch succeeds, each favourite URL has a record in the permanent store
    afterwards and no record that was there is changed; each URL that
    lacked a record is appended to the favourites once more. *)
Theorem index_backfill_completes (e : env) (fetch : pystr → outcome)
    (self : crawler) (fs : data_dir) :
  (∀ u, not_html (fetch_page (fetch u)) = false) →
  let r := index_backfill e fetch self fs in
  Forall (λ u, is_Some (dict_get u (db_perm r.1))) (favorite_urls self)
  ∧ (∀ k x, dict_get k (db_perm self) = Some x → dict_get k (db_perm r.1) = Some x)
  ∧ favorite_urls r.1
    = favorite_urls self
      ++ List.filter (λ u, negb (dict_mem u (db_perm self))) (favorite_urls self).
Proof.
  intros Hf. unfold index_backfill. simpl.
  destruct (backfill_fold e fetch
              (List.filter (λ u, negb (dict_mem u (db_perm self))) (favorite_urls self))
              self fs Hf) as (H1 & H2 & H3).
  split_and!; [|done|done].
  apply Forall_forall. intros u Hu.
  destruct (dict_mem u (db_perm self)) eqn:Hm.
  - apply dict_mem_spec in Hm as [x Hx]. exists x. by apply H2.
  - apply (proj1 (Forall_forall _ _) H3).
    apply list_elem_of_In, filter_In. split; [by apply list_elem_of_In|].
    by rewrite Hm.
Qed.

(** ** Sorted views *)

Lemma str_lt_irrefl a : str_lt a a = false.
Proof.
  induction a as [|x r IH]; simpl; [done|].
  by rewrite N.ltb_irrefl, N.eqb_refl, IH.
Qed.

Lemma str_lt_asym a b : str_lt a b = true → str_lt b a = false.
Proof.
  revert b. induction a as [|x a' IH]; intros [|y b']; simpl; try done.
  destruct (N.ltb_spec x y), (N.eqb_spec x y), (N.ltb_spec y x),
    (N.eqb_spec y x); simpl; try done; try lia.
  apply IH.
Qed.

Lemma str_le_trans a b c :
  str_lt b a = false → str_lt c b = false → str_lt c a = false.
Proof.
  revert b c. induction a as [|x a' IH]; intros [|y b'] [|z c']; simpl;
    try done.
  destruct (N.ltb_spec y x), (N.eqb_spec y x), (N.ltb_spec z y),
    (N.eqb_spec z y), (N.ltb_spec z x), (N.eqb_spec z x);
    simpl; try done; try lia.
  apply IH.
Qed.

Section Sorting.

Variable before : song → song → bool.

Lemma insert_sorted_perm x l : insert_sorted before x l ≡ₚ x :: l.
Proof.
  induction l as [|y r IH]; simpl; [done|].
  destruct (before y x); [|done]. rewrite IH. apply Permutation_swap.
Qed.

Lemma stable_sort_perm l : stable_sort before l ≡ₚ l.
Proof.
  induction l as [|x r IH]; simpl; [done|].
  rewrite insert_sorted_perm. by constructor.
Qed.

Lemma insert_sorted_filter (P : song → bool) x l :
  (∀ a b, P a = true → P b = true → before b a = false) →
  List.filter P (insert_sorted before x l) = List.filter P (x :: l).
Proof.
  intros HP. induction l as [|y r IH]; [done|].
  cbn [insert_sorted]. destruct (before y x) eqn:E; [|done].
  cbn [List.filter] in *. rewrite IH.
  destruct (P x) eqn:Px, (P y) eqn:Py; try done.
  by rewrite (HP x y Px Py) in E.
Qed.

Lemma stable_sort_filter (P : song → bool) l :
  (∀ a b, P a = true → P b = true → before b a = false) →
  List.filter P (stable_sort before l) = List.filter P l.
Proof.
  intros HP. induction l as [|x r IH]; [done|].
  cbn [stable_sort foldr]. fold (stable_sort before r).
  rewrite insert_sorted_filter by done. cbn [List.filter]. by rewrite IH.
Qed.

Hypothesis before_asym : ∀ a b, before a b = true → before b a = false.
Hypothesis before_trans :
  ∀ a b c, before b a = false → before c b = false → before c a = false.

Lemma insert_sorted_sorted x l :
  StronglySorted (λ a b, before b a = false) l →
  StronglySorted (λ a b, before b a = false) (insert_sorted before x l).
Proof using before_asym before_trans.
  induction 1 as [|y r Hr IH Hy]; simpl; [repeat constructor|].
  destruct (before y x) eqn:E.
  - constructor; [done|].
    rewrite insert_sorted_perm. constructor; [by apply before_asym | done].
  - constructor; [by constructor|]. constructor; [done|].
    eapply Forall_impl; [exact Hy|]. intros z Hz. by apply (before_trans x y z).
Qed.

Lemma stable_sort_sorted l :
  StronglySorted (λ a b, before b a = false) (stable_sort before l).
Proof using before_asym before_trans.
  induction l as [|x r IH]; simpl; [constructor|]. by apply insert_sorted_sorted.
Qed.

End Sorting.

Lemma sorted_by_artist_stable_sort l :
  sorted_by_artist l = stable_sort (λ y x, str_lt (artist y) (artist x)) l.
Proof.
  unfold sorted_by_artist, stable_sort. induction l as [|x r IH]; simpl; [done|].
  rewrite IH. generalize (foldr (insert_sorted (λ y x, str_lt (artist y) (artist x))) [] r).
  intros t. induction t as [|y t IHt]; simpl; [done|]. by rewrite IHt.
Qed.

(** X25. The followed view: the deduplicated followed records of the permanent
    store in ascending order of the artist, records of one artist in the
    order of the store; every record of the view is in the permanent store
    and matches a followed pattern, and no (title, artist) key comes
    twice. *)
Theorem followed_view_sorted (self : crawler) :
  let view := ui_followed (get_data_for_ui self) in
  let raw := deduplicate_songs
               (List.filter (is_followed (followed_artists self))
                            (dict_values (db_perm self))) in
  StronglySorted artist_le view
  ∧ view ≡ₚ raw
  ∧ (∀ a, List.filter (λ s, bool_decide (artist s = a)) view
          = List.filter (λ s, bool_decide (artist s = a)) raw)
  ∧ Forall (λ s, highlight self s = true ∧ s ∈ dict_values (db_perm self)) view
  ∧ NoDup (song_key <$> view).
Proof.
  simpl. rewrite sorted_by_artist_stable_sort.
  set (raw := deduplicate_songs _).
  pose proof (stable_sort_perm (λ y x, str_lt (artist y) (artist x)) raw) as Hperm.
  split_and!.
  - apply (stable_sort_sorted (λ y x, str_lt (artist y) (artist x))).
    + intros a b. apply str_lt_asym.
    + intros a b c H1 H2. by apply (str_le_trans _ (artist b)).
  - exact Hperm.
  - intros a. apply stable_sort_filter. intros x y Hx Hy.
    apply bool_decide_eq_true in Hx, Hy. rewrite Hx, Hy. apply str_lt_irrefl.
  - rewrite Hperm. apply Forall_forall. intros s Hs.
    unfold raw in Hs. rewrite dedup_unfold in Hs.
    apply dedup_from_elem in Hs as [Hs _].
    by apply elem_of_filter_bool in Hs as [? ?].
  - rewrite Hperm. unfold raw. rewrite dedup_unfold. apply dedup_from_NoDup.
Qed.

(** X26. The piano view: piano records of the permanent store, in the order of
    the store, no (title, artist) key twice, and every piano record of the
    store has its key in the view. *)
Theorem piano_view (self : crawler) :
  let view := ui_piano (get_data_for_ui self) in
  view `sublist_of` dict_values (db_perm self)
  ∧ Forall (λ s, is_piano s = true) view
  ∧ NoDup (song_key <$> view)
  ∧ Forall (λ s, is_piano s = true → song_key s ∈ song_key <$> view)
           (dict_values (db_perm self)).
Proof.
  simpl. rewrite dedup_unfold. split_and!.
  - etrans; [apply dedup_from_sublist|].
    induction (dict_values (db_perm self)) as [|s l IH]; simpl; [done|].
    destruct (is_piano s); [by apply sublist_skip | by apply sublist_cons].
  - apply Forall_forall. intros s [Hs _]%dedup_from_elem.
    by apply elem_of_filter_bool in Hs as [_ ?].
  - apply dedup_from_NoDup.
  - apply Forall_forall. intros s Hs Hp.
    assert (Hin : s ∈ List.filter is_piano (dict_values (db_perm self)))
      by by apply elem_of_filter_bool.
    destruct (dedup_from_complete ∅ _ s Hin (not_elem_of_empty _))
      as (y & Hy & <-).
    by apply list_elem_of_fmap_2.
Qed.

Lemma index_backfill_general e fetch self fs :
  db_general (index_backfill e fetch self fs).1 = db_general self.
Proof.
  unfold index_backfill.
  generalize (List.filter (λ u, negb (dict_mem u (db_perm self))) (favorite_urls self)).
  intros l. revert self fs. induction l as [|u r IH]; intros self fs; simpl; [done|].
  destruct (add_url_manually e (fetch u) u self fs) as [s1 fs1] eqn:E.
  rewrite (IH s1 fs1). change s1 with (s1, fs1).1. rewrite <- E.
  unfold add_url_manually. by destruct (not_html (fetch_page (fetch u))).
Qed.

(** X27. The page shows the general store newest first: the general list of
    [index] holds the records of the general store ordered by the date of
    discovery from the newest, records of one day in the order of the
    store; the five counts are the lengths of the five lists. *)
Theorem index_page_newest_first (e : env) (fetch : pystr → outcome)
    (self : crawler) (fs : data_dir) :
  let r := index_page e fetch self fs in
  let data := r.1.1 in
  StronglySorted not_older (ui_general data)
  ∧ ui_general data ≡ₚ dict_values (db_general self)
  ∧ (∀ d, List.filter (λ s, bool_decide (discovered_at s = d)) (ui_general data)
          = List.filter (λ s, bool_decide (discovered_at s = d))
                        (dict_values (db_general self)))
  ∧ r.1.2 = (length (db_general self), length (ui_video data),
             length (ui_piano data), length (ui_followed data),
             length (ui_favorites data)).
Proof.
  simpl. rewrite index_backfill_general.
  pose proof (stable_sort_perm newer (dict_values (db_general self))) as Hperm.
  unfold sorted_newest_first. split_and!.
  - apply (stable_sort_sorted newer).
    + intros a b. apply str_lt_asym.
    + intros a b c H1 H2. by apply (str_le_trans _ (discovered_at b)).
  - exact Hperm.
  - intros d. apply stable_sort_filter. intros x y Hx Hy.
    apply bool_decide_eq_true in Hx, Hy. unfold newer. rewrite Hx, Hy.
    apply str_lt_irrefl.
  - rewrite Hperm. unfold dict_values. by rewrite length_fmap.
Qed.

(** ** The scheduler *)

(** X28. The daily trigger: at any time of day the scheduler sleeps a positive
    time of at most 24 hours and wakes at 12:00:00 sharp, today when it is
    before noon and tomorrow otherwise. *)
Theorem sleep_delta_wakes_at_noon (now : Z) :
  (0 ≤ now < one_day)%Z →
  (0 < sleep_delta now ≤ one_day)%Z
  ∧ ((now + sleep_delta now) `mod` one_day = noon)%Z
  ∧ (now + sleep_delta now = if (noon <=? now)%Z then noon + one_day else noon)%Z.
Proof.
  intros Hnow. unfold sleep_delta, one_day, noon in *.
  destruct (Z.leb_spec 43200000000 now) as [H|H].
  - split_and!; [lia | lia | | lia].
    replace (now + (43200000000 + 86400000000 - now))%Z
      with (43200000000 + 1 * 86400000000)%Z by lia.
    by rewrite Z_mod_plus_full.
  - split_and!; [lia | lia | | lia].
    replace (now + (43200000000 - now))%Z with 43200000000%Z by lia. done.
Qed.

(** ** The segments of the link text *)

Lemma split_go_plain t cur rest :
  124%N ∉ t →
  split_go sep3 0 cur (t ++ rest) = split_go sep3 0 (reverse t ++ cur) rest.
Proof.
  revert cur. induction t as [|c t' IH]; intros cur Hbar; [done|].
  apply not_elem_of_cons in Hbar as [Hc Ht].
  change sep3 with [124; 124; 124]%N in *. cbn [app split_go startswith].
  rewrite (proj2 (N.eqb_neq 124 c)) by done. cbn [andb].
  rewrite IH by done. by rewrite reverse_cons, <- app_assoc.
Qed.

Lemma split_go_sep cur more :
  split_go sep3 0 cur (sep3 ++ more) = reverse cur :: split_go sep3 0 [] more.
Proof. reflexivity. Qed.

Lemma split_go_join t l cur :
  Forall (λ t, 124%N ∉ t) (t :: l) →
  split_go sep3 0 cur (join sep3 (t :: l)) = (reverse cur ++ t) :: l.
Proof.
  revert t cur. induction l as [|t2 l' IH]; intros t cur [Ht Hl]%Forall_cons.
  - cbn [join]. rewrite <- (app_nil_r t) at 1. rewrite split_go_plain by done.
    cbn [split_go]. by rewrite reverse_app, reverse_involutive.
  - change (join sep3 (t :: t2 :: l')) with (t ++ sep3 ++ join sep3 (t2 :: l')).
    rewrite split_go_plain by done. rewrite split_go_sep, IH by done.
    by rewrite reverse_app, reverse_involutive.
Qed.

Lemma strip_fixed_parts (l : list pystr) :
  Forall (λ p, p ≠ [] ∧ strip p = p) l →
  strip <$> List.filter (λ p, negb (bool_decide (strip p = []))) l = l.
Proof.
  induction 1 as [|p r [Hne Hs] _ IH]; [done|].
  cbn [List.filter]. rewrite Hs, bool_decide_eq_false_2 by done.
  csimpl. by rewrite Hs, IH.
Qed.

(** X11. The separator round trip of lines 85-86: when no text node of the link
    holds a vertical bar, joining the stripped text nodes with ["|||"] and
    splitting the result again gives exactly the stripped text nodes that
    are not empty, in document order. *)
Theorem text_parts_of_text_nodes (a : anchor) :
  Forall (λ t, 124%N ∉ t) (a_strings a) →
  text_parts (get_text_sep a)
  = List.filter (λ t, negb (bool_decide (t = []))) (strip <$> a_strings a).
Proof.
  intros Hbar. unfold text_parts, get_text_sep.
  set (l := List.filter _ (strip <$> a_strings a)).
  assert (Hl : Forall (λ p, (p ≠ [] ∧ strip p = p) ∧ 124%N ∉ p) l).
  { apply Forall_forall. intros p [Hp Hne]%list_elem_of_In%filter_In.
    apply list_elem_of_In, list_elem_of_fmap in Hp as (t & -> & Ht).
    apply negb_true_iff, bool_decide_eq_false in Hne.
    split; [split; [done | apply strip_idemp]|].
    intros Hin. apply (proj1 (Forall_forall _ _) Hbar t Ht).
    eapply elem_of_sublist; [exact Hin | apply strip_sublist]. }
  apply Forall_and in Hl as [Hfix Hnobar].
  destruct l as [|t r] eqn:El; [reflexivity|].
  unfold split. rewrite split_go_join by done.
  rewrite reverse_nil, app_nil_l. by apply strip_fixed_parts.
Qed.

(** ** The crawl and the two lists *)

(** X17. A full crawl, whatever the fetch gives, replaces the lists of followed
    artists and of favourites in memory by what their files hold, and never
    writes these two files. *)
Theorem scrape_all_lists (e : env) (o : outcome) (self : crawler) (fs : data_dir) :
  let r := scrape_all e o self fs in
  followed_artists r.1 = load_txt (ARTISTS_FILE fs)
  ∧ favorite_urls r.1 = load_txt (FAVORITES_FILE fs)
  ∧ ARTISTS_FILE r.2 = ARTISTS_FILE fs
  ∧ FAVORITES_FILE r.2 = FAVORITES_FILE fs.
Proof.
  unfold scrape_all. simpl. destruct (not_html (fetch_page o)); [done|].
  unfold scrape_merge. by destruct (route _ _ _) as [[g v] p].
Qed.

(** ** What the merge leaves in a capped store *)

Lemma merged_values_exact cap (new : list song) (old : pydict) :
  url_fixes_key (new ++ dict_values old) →
  dict_values (dict_of_songs (take cap (deduplicate_songs (new ++ dict_values old))))
  = take cap (deduplicate_songs (new ++ dict_values old)).
Proof.
  intros H. rewrite dict_of_songs_distinct by by apply kept_urls_distinct.
  unfold dict_values. apply pairs_values.
Qed.

(** X15. The order of a merged store: when among the candidates and the stored
    records a URL goes with one (title, artist) key, the records of the
    general store after the merge are, in this order, the first 50 of the
    deduplicated new general candidates followed by the stored records;
    likewise for the video store with 20. New records thus come first and
    the cap cuts from the end. *)
Theorem scrape_merge_store_order (e : env) (scraped : list song)
    (self : crawler) (fs : data_dir) :
  let self' := (scrape_merge e scraped self fs).1 in
  (url_fixes_key (List.filter to_general scraped ++ dict_values (db_general self)) →
   dict_values (db_general self')
   = take 50 (deduplicate_songs
                (List.filter to_general scraped ++ dict_values (db_general self))))
  ∧ (url_fixes_key (List.filter to_video scraped ++ dict_values (db_video self)) →
     dict_values (db_video self')
     = take 20 (deduplicate_songs
                  (List.filter to_video scraped ++ dict_values (db_video self)))).
Proof.
  simpl. rewrite scrape_merge_general, scrape_merge_video.
  split; intros H; by apply merged_values_exact.
Qed.

(** ** The record of a manual add *)

(** X23. Manual add of a URL without a record: when the page is fetched, the
    permanent store holds afterwards, under that URL, a record with that
    URL, the date of the day, title, artist and tags without surrounding
    whitespace, and flags that say whether a tag holds the piano or the
    video marker; when the files can be written the file of the permanent
    store holds the store. The title may be empty. *)
Theorem add_url_manually_stores (e : env) (o : outcome) (u : pystr)
    (self : crawler) (fs : data_dir) :
  not_html (fetch_page o) = false → dict_get u (db_perm self) = None →
  let r := add_url_manually e o u self fs in
  ∃ x, dict_get u (db_perm r.1) = Some x
       ∧ url x = u ∧ discovered_at x = env_today e
       ∧ strip (title x) = title x ∧ strip (artist x) = artist x
       ∧ Forall (λ t, strip t = t) (tags x)
       ∧ is_piano x = existsb (contains s_piano) (tags x)
       ∧ is_video x = existsb (contains s_video) (tags x)
       ∧ (env_writable e = true → DB_PERMANENT r.2 = Some (db_perm r.1)).
Proof.
  intros Ho Hu. unfold add_url_manually. rewrite Ho. simpl.
  assert (Hm : dict_mem u (db_perm self) = false).
  { destruct (dict_mem u (db_perm self)) eqn:E; [|done].
    apply dict_mem_spec in E as [x Hx]. by rewrite Hu in Hx. }
  rewrite Hm. eexists. split; [by rewrite dict_get_set, decide_True|].
  unfold manual_song.
  destruct (page_h1 (detail_of (default [] (fetch_page o)))) as [h|]; simpl.
  - split_and!; try done.
    + destruct (h1_bold h); apply strip_idemp.
    + by destruct (h1_sized h); [apply strip_idemp|].
    + apply Forall_fmap, Forall_forall. intros t _. apply strip_idemp.
    + intros Hw. unfold save_json. by rewrite Hw.
  - split_and!; try done.
    + apply Forall_fmap, Forall_forall. intros t _. apply strip_idemp.
    + intros Hw. unfold save_json. by rewrite Hw.
Qed.

End Crawler.

(** ** Manual add *)

Lemma add_url_manually_appends detail_of e o u self fs :
  not_html (fetch_page o) = false →
  favorite_urls (add_url_manually detail_of e o u self fs).1
  = favorite_urls self ++ [u].
Proof. intros Ho. unfold add_url_manually. by rewrite Ho. Qed.

(** C2, the code at the failing input. Manual add on a URL that is already
    a favourite appends it again (line 186 has no membership test): the
    list in memory and the favourites file then hold the URL twice. *)
Theorem add_url_manually_appends_listed_url :
  let r := add_url_manually (λ _, fav_page) day1 (fetched "<html>")
             fav_url one_favorite one_favorite_dir in
  fav_url ∈ favorite_urls one_favorite
  ∧ favorite_urls r.1 = [fav_url; fav_url]
  ∧ FAVORITES_FILE r.2 = Some [fav_url; fav_url].
Proof. split_and!; [by left | reflexivity | reflexivity]. Qed.

(** The toggle of line 626 tests membership before it appends; and the page
    load of lines 587-593 hands every favourite without a stored record to
    manual add, which doubles it. *)
Example api_favorite_tests_membership :
  favorite_urls (api_favorite day1 fav_url one_favorite one_favorite_dir).1 = []
  ∧ favorite_urls (api_favorite day1 fav_url no_songs empty_dir).1 = [fav_url].
Proof. by compute_done. Qed.

Example index_backfill_doubles_favorite :
  favorite_urls
    (index_backfill (λ _, fav_page) day1 (λ _, fetched "<html>")
       one_favorite one_favorite_dir).1
  = [fav_url; fav_url].
Proof. by compute_done. Qed.

(** ** The code on the sample data *)

(** Keys are compared exactly: a title in another case is another key. *)
Example deduplicate_songs_case_sensitive :
  let upper := Song (py "Hit") (py "Star") (py "u1") [] false false (py "d") in
  let lower := Song (py "hit") (py "Star") (py "u2") [] false false (py "d") in
  let again := Song (py "Hit") (py "Star") (py "u3") [] false false (py "d") in
  deduplicate_songs [upper; lower; again; upper] = [upper; lower].
Proof. by compute_done. Qed.

(** The three outcomes of the title rule. *)
Example parse_song_item_titles :
  title <$> parse_song_item sample_decimal sample_urljoin (py "2026-01-02") plain_item NEW_URL
    = Some (py "My Song")
  ∧ title <$> parse_song_item sample_decimal sample_urljoin (py "2026-01-02") bare_item NEW_URL
    = Some (py "Unknown")
  ∧ title <$> parse_song_item sample_decimal sample_urljoin (py "2026-01-02") noise_item NEW_URL
    = Some (py "Unknown Song").
Proof. by compute_done. Qed.

(** The scenario of the specification: the stored record and a fresh one
    with the same title and artist; the merge yields the fresh one. *)
Example merge_yields_fresh_record :
  db_general (scrape_merge sample_lower day2 [hit_new] only_hit empty_dir).1
  = [(url hit_new, hit_new)].
Proof. by compute_done. Qed.

(** A URL scraped again under a new title keeps its stored record: both
    keys survive deduplication and the comprehension of line 146 lets the
    later, stored record overwrite the fresh one. The statement of C3 as
    proved above leaves this case out. *)
Example stored_title_overwrites_fresh :
  db_general (scrape_merge sample_lower day2 [hit_new] only_renamed empty_dir).1
  = [(url hit_new, hit_renamed)].
Proof. by compute_done. Qed.

(** ** The theorems at the sample data *)

Lemma scrape_all_caps_witness :
  let o := fetched "<html>" in
  let self' := (scrape_all sample_decimal sample_lower sample_urljoin
                  (λ _, [plain_item; bare_item; noise_item]) day2 o
                  full_general empty_dir).1 in
  not_html (fetch_page o) = false
  ∧ length (db_general self') ≤ 50 ∧ length (db_video self') ≤ 20.
Proof.
  split; [reflexivity|].
  apply (proj2 (scrape_all_caps sample_decimal sample_lower sample_urljoin
                  (λ _, [plain_item; bare_item; noise_item]) day2
                  full_general empty_dir) (fetched "<html>")).
  reflexivity.
Defined.

Lemma new_wins_on_collision_witness :
  let scraped := [] ++ hit_new :: [] in
  let self' := (scrape_merge sample_lower day2 scraped only_hit empty_dir).1 in
  (is_piano hit_new = false
   ∧ is_video hit_new = false
   ∧ (song_key hit_new ∉ song_key <$> List.filter to_general [])
   ∧ length (deduplicate_songs (List.filter to_general [])) < 50
   ∧ Forall (λ r, url r = url hit_new → song_key r = song_key hit_new)
            (List.filter to_general scraped ++ dict_values (db_general only_hit)))
  ∧ hit_old ∈ dict_values (db_general only_hit)
  ∧ song_key hit_new = song_key hit_old
  ∧ dict_get (url hit_new) (db_general self') = Some hit_new
  ∧ (hit_old ∉ dict_values (db_general self')).
Proof.
  assert (H1 : is_piano hit_new = false) by reflexivity.
  assert (H2 : is_video hit_new = false) by reflexivity.
  assert (H3 : song_key hit_new ∉ song_key <$> List.filter to_general [])
    by compute_done.
  assert (H4 : length (deduplicate_songs (List.filter to_general [])) < 50)
    by compute_done.
  assert (H5 : Forall (λ r, url r = url hit_new → song_key r = song_key hit_new)
                 (List.filter to_general ([] ++ hit_new :: [])
                  ++ dict_values (db_general only_hit)))
    by compute_done.
  destruct (proj1 (new_wins_on_collision sample_lower day2 only_hit empty_dir
                     [] [] hit_new H1) H2 H3 H4 H5) as [A B].
  split_and!; [exact H1 | exact H2 | exact H3 | exact H4 | exact H5
              | compute_done | reflexivity | exact A |].
  intros Hin. specialize (B hit_old Hin eq_refl). discriminate B.
Defined.

(** C3, the claim as stated fails: the hit is stored, it is scraped again
    as the 51st general candidate of the listing, and the merged general
    store holds neither the fresh record nor any record under its URL (nor
    the stored record). *)
Lemma new_wins_on_collision_counterexample :
  hit_old ∈ dict_values (db_general only_hit)
  ∧ hit_new ∈ long_listing
  ∧ to_general hit_new = true
  ∧ song_key hit_new = song_key hit_old
  ∧ (hit_new ∉ dict_values
       (db_general (scrape_merge sample_lower day2 long_listing only_hit empty_dir).1))
  ∧ dict_get (url hit_new)
      (db_general (scrape_merge sample_lower day2 long_listing only_hit empty_dir).1)
    = None
  ∧ (hit_old ∉ dict_values
       (db_general (scrape_merge sample_lower day2 long_listing only_hit empty_dir).1)).
Proof. by compute_done. Qed.

Lemma piano_priority_witness :
  let scraped := [piano_clip; hit_new] in
  let self' := (scrape_merge sample_lower day2 scraped only_hit empty_dir).1 in
  (no_piano (db_general only_hit) ∧ no_piano (db_video only_hit)
   ∧ piano_clip ∈ scraped ∧ is_piano piano_clip = true
   ∧ is_video piano_clip = true)
  ∧ (piano_clip ∉ dict_values (db_general self'))
  ∧ (piano_clip ∉ dict_values (db_video self'))
  ∧ dict_get (url piano_clip) (db_perm self') = Some piano_clip.
Proof.
  assert (H1 : no_piano (db_general only_hit)) by compute_done.
  assert (H2 : no_piano (db_video only_hit)) by compute_done.
  assert (H3 : piano_clip ∈ [piano_clip; hit_new]) by compute_done.
  assert (H4 : is_piano piano_clip = true) by reflexivity.
  destruct (piano_priority sample_lower day2 [piano_clip; hit_new] only_hit
              empty_dir piano_clip H1 H2 H3 H4) as (A & B & _ & _ & _ & F).
  split_and!; [exact H1 | exact H2 | exact H3 | exact H4 | reflexivity
              | exact A | exact B | apply F; compute_done].
Defined.

Lemma fetch_failure_is_noop_witness :
  let o := Answered 503 (py "Service Unavailable") in
  let r := scrape_all sample_decimal sample_lower sample_urljoin
             (λ _, [plain_item]) day2 o full_general one_favorite_dir in
  fetch_page o = None
  ∧ db_general r.1 = db_general full_general
  ∧ r.2 = one_favorite_dir.
Proof.
  destruct (fetch_failure_is_noop sample_decimal sample_lower sample_urljoin
              (λ _, [plain_item]) day2 (Answered 503 (py "Service Unavailable"))
              full_general one_favorite_dir) as (A & _ & _ & B & _);
    [reflexivity|].
  split_and!; [reflexivity | exact A | exact B].
Defined.

Lemma truncation_evicts_oldest_witness :
  let old := dict_values (db_general full_general) in
  let general' := db_general (scrape_merge sample_lower day2 [hit_new] full_general empty_dir).1 in
  (length (db_general full_general) = 50
   ∧ NoDup (song_key <$> old) ∧ NoDup (url <$> old)
   ∧ is_piano hit_new = false ∧ is_video hit_new = false
   ∧ (song_key hit_new ∉ song_key <$> old) ∧ (url hit_new ∉ url <$> old)
   ∧ last old = Some (numbered 49))
  ∧ length general' = 50
  ∧ dict_get (url hit_new) general' = Some hit_new
  ∧ (numbered 49 ∉ dict_values general').
Proof.
  assert (H1 : length (db_general full_general) = 50) by reflexivity.
  assert (H2 : NoDup (song_key <$> dict_values (db_general full_general)))
    by compute_done.
  assert (H3 : NoDup (url <$> dict_values (db_general full_general)))
    by compute_done.
  assert (H4 : song_key hit_new ∉ song_key <$> dict_values (db_general full_general))
    by compute_done.
  assert (H5 : url hit_new ∉ url <$> dict_values (db_general full_general))
    by compute_done.
  assert (H6 : last (dict_values (db_general full_general)) = Some (numbered 49))
    by reflexivity.
  destruct (truncation_evicts_oldest sample_lower day2 full_general empty_dir
              hit_new (numbered 49) H1 H2 H3 eq_refl eq_refl H4 H5 H6)
    as (A & B & C & _ & _).
  split_and!; [exact H1 | exact H2 | exact H3 | reflexivity | reflexivity
              | exact H4 | exact H5 | exact H6 | exact A | exact B | exact C].
Defined.

Lemma favorites_view_precedence_witness :
  stores_ok tri_stores
  ∧ dict_get tri_url (db_general tri_stores) = Some (tri "general" false)
  ∧ dict_get tri_url (db_video tri_stores) = Some (tri "video" true)
  ∧ dict_get tri_url (db_perm tri_stores) = Some (tri "permanent" false)
  ∧ dict_get tri_url (all_known tri_stores) = Some (tri "permanent" false)
  ∧ ui_favorites (get_data_for_ui sample_lower tri_stores) = [tri "permanent" false].
Proof.
  assert (H : stores_ok tri_stores) by compute_done.
  destruct (favorites_view_precedence sample_lower tri_stores H) as (A & _ & _).
  split_and!; [exact H | reflexivity | reflexivity | reflexivity
              | exact (A tri_url) | reflexivity].
Defined.

Lemma parse_song_item_title_nonempty_witness :
  parse_song_item sample_decimal sample_urljoin (py "2026-01-02") noise_item NEW_URL
    = Some (Song s_Unknown_Song s_Unknown
              (py "https://www.ufret.jp/song.php?data=3") [] false false
              (py "2026-01-02"))
  ∧ s_Unknown_Song ≠ [].
Proof.
  assert (H : parse_song_item sample_decimal sample_urljoin (py "2026-01-02")
                noise_item NEW_URL
              = Some (Song s_Unknown_Song s_Unknown
                        (py "https://www.ufret.jp/song.php?data=3") [] false false
                        (py "2026-01-02"))) by reflexivity.
  destruct (parse_song_item_title_nonempty sample_decimal sample_urljoin _ _ _ _ H)
    as [A _].
  split; [exact H | exact A].
Defined.

(** ** The further properties at the sample data *)

Lemma load_txt_save_txt_witness :
  let d := [fav_url; tri_url] in
  env_writable day1 = true ∧ Forall clean_entry d
  ∧ load_txt (save_txt day1 d None) = d.
Proof.
  assert (H1 : env_writable day1 = true) by reflexivity.
  assert (H2 : Forall clean_entry [fav_url; tri_url]) by compute_done.
  split_and!; [exact H1 | exact H2 |].
  apply (load_txt_save_txt day1 [fav_url; tri_url] None H1 H2).
Defined.

Lemma api_follow_highlights_witness :
  (py "Star" ∉ load_txt (ARTISTS_FILE empty_dir))
  ∧ artist hit_new = py "Star"
  ∧ highlight sample_lower (api_follow day1 (py "Star") no_songs empty_dir).1 hit_new
    = true.
Proof.
  assert (H1 : py "Star" ∉ load_txt (ARTISTS_FILE empty_dir)) by compute_done.
  assert (H2 : artist hit_new = py "Star") by reflexivity.
  split_and!; [exact H1 | exact H2 |].
  apply (api_follow_highlights sample_lower day1 (py "Star") no_songs empty_dir
           hit_new H1 H2).
Defined.


Lemma parse_song_item_fields_witness :
  let s := Song (py "My Song") (py "Singer")
             (py "https://www.ufret.jp/song.php?data=1") [py "NEW"] false false
             (py "2026-01-02") in
  parse_song_item sample_decimal sample_urljoin (py "2026-01-02") plain_item NEW_URL
    = Some s
  ∧ strip (title s) = title s ∧ strip (artist s) = artist s.
Proof.
  assert (H : parse_song_item sample_decimal sample_urljoin (py "2026-01-02")
                plain_item NEW_URL
              = Some (Song (py "My Song") (py "Singer")
                        (py "https://www.ufret.jp/song.php?data=1") [py "NEW"]
                        false false (py "2026-01-02"))) by reflexivity.
  destruct (parse_song_item_fields sample_decimal sample_urljoin _ _ _ _ H)
    as (A & B & _).
  split_and!; [exact H | exact A | exact B].
Defined.

Lemma scrape_merge_perm_grows_witness :
  let scraped := [piano_clip; hit_new] in
  let perm' := db_perm (scrape_merge sample_lower day2 scraped tri_stores empty_dir).1 in
  Forall (λ s, url s ≠ tri_url)
         (List.filter (to_perm sample_lower (followed_artists tri_stores)) scraped)
  ∧ length (db_perm tri_stores) ≤ length perm'
  ∧ dict_get tri_url perm' = dict_get tri_url (db_perm tri_stores)
  ∧ is_Some (dict_get tri_url perm').
Proof.
  assert (H1 : Forall (λ s, url s ≠ tri_url)
                 (List.filter (to_perm sample_lower (followed_artists tri_stores))
                              [piano_clip; hit_new])) by compute_done.
  assert (H2 : is_Some (dict_get tri_url (db_perm tri_stores))) by compute_done.
  destruct (scrape_merge_perm_grows sample_lower day2 [piano_clip; hit_new]
              tri_stores empty_dir tri_url) as (A & B & C & _).
  split_and!; [exact H1 | exact A | exact (C H1) | exact (B H2)].
Defined.

Lemma followed_routing_witness :
  let scraped := [hit_new; star_clip] in
  let perm' := db_perm (scrape_merge sample_lower day2 scraped fan empty_dir).1 in
  (hit_new ∈ scraped ∧ star_clip ∈ scraped
   ∧ is_followed sample_lower (followed_artists fan) hit_new = true
   ∧ is_followed sample_lower (followed_artists fan) star_clip = true
   ∧ Forall (λ r, url r = url hit_new → r = hit_new) scraped
   ∧ Forall (λ r, url r = url star_clip → r = star_clip) scraped)
  ∧ dict_get (url hit_new) perm' = Some hit_new
  ∧ dict_get (url star_clip) perm' = None.
Proof.
  assert (H1 : hit_new ∈ [hit_new; star_clip]) by compute_done.
  assert (H2 : star_clip ∈ [hit_new; star_clip]) by compute_done.
  assert (H3 : is_followed sample_lower (followed_artists fan) hit_new = true)
    by reflexivity.
  assert (H4 : is_followed sample_lower (followed_artists fan) star_clip = true)
    by reflexivity.
  assert (H5 : Forall (λ r, url r = url hit_new → r = hit_new) [hit_new; star_clip])
    by compute_done.
  assert (H6 : Forall (λ r, url r = url star_clip → r = star_clip) [hit_new; star_clip])
    by compute_done.
  split_and!; [exact H1 | exact H2 | exact H3 | exact H4 | exact H5 | exact H6 | |].
  - apply (followed_routing sample_lower day2 [hit_new; star_clip] fan empty_dir
             hit_new H1 eq_refl H3 H5).
  - apply (followed_routing sample_lower day2 [hit_new; star_clip] fan empty_dir
             star_clip H2 eq_refl H4 H6).
Defined.

Lemma scrape_merge_idempotent_witness :
  let scraped := [piano_clip; hit_new; star_clip] in
  let once := scrape_merge sample_lower day1 scraped only_hit empty_dir in
  (dict_wf (db_perm only_hit)
   ∧ url_fixes_key (List.filter to_general scraped ++ dict_values (db_general only_hit))
   ∧ url_fixes_key (List.filter to_video scraped ++ dict_values (db_video only_hit)))
  ∧ (scrape_merge sample_lower day2 scraped once.1 once.2).1 = once.1.
Proof.
  assert (H1 : dict_wf (db_perm only_hit)) by compute_done.
  assert (H2 : url_fixes_key (List.filter to_general [piano_clip; hit_new; star_clip]
                              ++ dict_values (db_general only_hit))) by compute_done.
  assert (H3 : url_fixes_key (List.filter to_video [piano_clip; hit_new; star_clip]
                              ++ dict_values (db_video only_hit))) by compute_done.
  split_and!; [exact H1 | exact H2 | exact H3 |].
  apply (scrape_merge_idempotent sample_lower day1 day2
           [piano_clip; hit_new; star_clip] only_hit empty_dir H1 H2 H3).
Defined.

Lemma reachable_capped_stores_witness :
  let st := scrape_all sample_decimal sample_lower sample_urljoin sample_listing
              day1 (fetched "<html>") (init empty_dir) empty_dir in
  reachable sample_decimal sample_lower sample_urljoin sample_listing
            (λ _, fav_page) st.1 st.2
  ∧ length (db_general st.1) = 3
  ∧ length (db_general st.1) ≤ 50 ∧ length (db_video st.1) ≤ 20.
Proof.
  assert (H : reachable sample_decimal sample_lower sample_urljoin sample_listing
                (λ _, fav_page)
                (scrape_all sample_decimal sample_lower sample_urljoin sample_listing
                   day1 (fetched "<html>") (init empty_dir) empty_dir).1
                (scrape_all sample_decimal sample_lower sample_urljoin sample_listing
                   day1 (fetched "<html>") (init empty_dir) empty_dir).2)
    by apply reach_scrape, reach_start.
  destruct (reachable_capped_stores _ _ _ _ _ _ _ H) as (A & B & _).
  split_and!; [exact H | reflexivity | exact A | exact B].
Defined.

Lemma reachable_url_unique_witness :
  let st := scrape_all sample_decimal sample_lower sample_urljoin sample_listing
              day1 (fetched "<html>") (init empty_dir) empty_dir in
  reachable sample_decimal sample_lower sample_urljoin sample_listing
            (λ _, fav_page) st.1 st.2
  ∧ NoDup (url <$> dict_values (db_general st.1)).
Proof.
  assert (H : reachable sample_decimal sample_lower sample_urljoin sample_listing
                (λ _, fav_page)
                (scrape_all sample_decimal sample_lower sample_urljoin sample_listing
                   day1 (fetched "<html>") (init empty_dir) empty_dir).1
                (scrape_all sample_decimal sample_lower sample_urljoin sample_listing
                   day1 (fetched "<html>") (init empty_dir) empty_dir).2)
    by apply reach_scrape, reach_start.
  pose proof (reachable_url_unique _ _ _ _ _ _ _ H) as U.
  apply Forall_cons in U as [[A _] _].
  split; [exact H | exact A].
Defined.

Lemma scrape_all_nothing_scraped_witness :
  let st := scrape_all sample_decimal sample_lower sample_urljoin sample_listing
              day1 (fetched "<html>") (init empty_dir) empty_dir in
  let st' := scrape_all sample_decimal sample_lower sample_urljoin sample_listing
               day2 (fetched "<nothing>") st.1 st.2 in
  not_html (fetch_page (fetched "<nothing>")) = false
  ∧ parse_items sample_decimal sample_urljoin (env_today day2)
      (sample_listing (default [] (fetch_page (fetched "<nothing>")))) = []
  ∧ length (db_general st.1) = 3
  ∧ db_general st'.1 = db_general st.1 ∧ db_perm st'.1 = db_perm st.1.
Proof.
  assert (H : reachable sample_decimal sample_lower sample_urljoin sample_listing
                (λ _, fav_page)
                (scrape_all sample_decimal sample_lower sample_urljoin sample_listing
                   day1 (fetched "<html>") (init empty_dir) empty_dir).1
                (scrape_all sample_decimal sample_lower sample_urljoin sample_listing
                   day1 (fetched "<html>") (init empty_dir) empty_dir).2)
    by apply reach_scrape, reach_start.
  assert (H2 : parse_items sample_decimal sample_urljoin (env_today day2)
                 (sample_listing (default [] (fetch_page (fetched "<nothing>")))) = [])
    by reflexivity.
  destruct (scrape_all_nothing_scraped sample_decimal sample_lower sample_urljoin
              sample_listing (λ _, fav_page) day2 (fetched "<nothing>") _ _ H
              (or_intror H2)) as (A & _ & C).
  split_and!; [reflexivity | exact H2 | reflexivity | exact A | exact C].
Defined.

Lemma scrape_all_then_restart_witness :
  let st := scrape_all sample_decimal sample_lower sample_urljoin sample_listing
              day1 (fetched "<html>") only_hit one_favorite_dir in
  env_writable day1 = true ∧ not_html (fetch_page (fetched "<html>")) = false
  ∧ init st.2 = st.1.
Proof.
  split_and!; [reflexivity | reflexivity |].
  apply (scrape_all_then_restart sample_decimal sample_lower sample_urljoin
           sample_listing day1 (fetched "<html>") only_hit one_favorite_dir
           eq_refl eq_refl).
Defined.

Lemma add_url_manually_frame_witness :
  let kept := add_url_manually (λ _, fav_page) day1 (fetched "<html>") tri_url
                tri_stores empty_dir in
  let failed := add_url_manually (λ _, fav_page) day1 Raised fav_url
                  tri_stores empty_dir in
  dict_get tri_url (db_perm tri_stores) = Some (tri "permanent" false)
  ∧ not_html (fetch_page Raised) = true
  ∧ dict_get tri_url (db_perm kept.1) = Some (tri "permanent" false)
  ∧ failed = (tri_stores, empty_dir).
Proof.
  assert (H1 : dict_get tri_url (db_perm tri_stores) = Some (tri "permanent" false))
    by reflexivity.
  assert (H2 : not_html (fetch_page Raised) = true) by reflexivity.
  destruct (add_url_manually_frame (λ _, fav_page) day1 (fetched "<html>") tri_url
              tri_stores empty_dir) as (A & _).
  destruct (add_url_manually_frame (λ _, fav_page) day1 Raised fav_url
              tri_stores empty_dir) as (_ & _ & _ & B & _).
  split_and!; [exact H1 | exact H2 | exact (A _ _ H1) | exact (B H2)].
Defined.

Lemma index_backfill_completes_witness :
  let fetch := λ _ : pystr, fetched "<html>" in
  let r := index_backfill (λ _, fav_page) day1 fetch one_favorite one_favorite_dir in
  (∀ u, not_html (fetch_page (fetch u)) = false)
  ∧ Forall (λ u, is_Some (dict_get u (db_perm r.1))) (favorite_urls one_favorite)
  ∧ favorite_urls r.1 = [fav_url; fav_url].
Proof.
  assert (H : ∀ u : pystr, not_html (fetch_page (fetched "<html>")) = false)
    by (intros _; reflexivity).
  destruct (index_backfill_completes (λ _, fav_page) day1 (λ _, fetched "<html>")
              one_favorite one_favorite_dir H) as (A & _ & C).
  split_and!; [exact H | exact A | exact C].
Defined.

Lemma sleep_delta_wakes_at_noon_witness :
  let one_pm := (13 * 3600 * 1000000)%Z in
  (0 ≤ one_pm < one_day)%Z
  ∧ sleep_delta one_pm = (23 * 3600 * 1000000)%Z
  ∧ ((one_pm + sleep_delta one_pm) `mod` one_day = noon)%Z.
Proof.
  assert (H : (0 ≤ 13 * 3600 * 1000000 < one_day)%Z) by (unfold one_day; lia).
  destruct (sleep_delta_wakes_at_noon (13 * 3600 * 1000000)%Z H) as (_ & A & _).
  split; [exact H|]. split; [reflexivity | exact A].
Defined.

Lemma text_parts_of_text_nodes_witness :
  let a := {| a_href := None;
              a_strings := [py " My Song "; py "  "; py "- Singer"; py "NEW"] |} in
  Forall (λ t, 124%N ∉ t) (a_strings a)
  ∧ text_parts (get_text_sep a) = [py "My Song"; py "- Singer"; py "NEW"].
Proof.
  assert (H : Forall (λ t, 124%N ∉ t)
                [py " My Song "; py "  "; py "- Singer"; py "NEW"]) by compute_done.
  split; [exact H|].
  apply (text_parts_of_text_nodes
           {| a_href := None;
              a_strings := [py " My Song "; py "  "; py "- Singer"; py "NEW"] |} H).
Defined.

Lemma scrape_merge_store_order_witness :
  let scraped := [piano_clip; hit_new; star_clip] in
  let self' := (scrape_merge sample_lower day2 scraped full_general empty_dir).1 in
  url_fixes_key (List.filter to_general scraped ++ dict_values (db_general full_general))
  ∧ url_fixes_key (List.filter to_video scraped ++ dict_values (db_video full_general))
  ∧ dict_values (db_general self') = hit_new :: take 49 fifty
  ∧ dict_values (db_video self') = [star_clip].
Proof.
  assert (H1 : url_fixes_key (List.filter to_general [piano_clip; hit_new; star_clip]
                              ++ dict_values (db_general full_general)))
    by compute_done.
  assert (H2 : url_fixes_key (List.filter to_video [piano_clip; hit_new; star_clip]
                              ++ dict_values (db_video full_general)))
    by compute_done.
  destruct (scrape_merge_store_order sample_lower day2 [piano_clip; hit_new; star_clip]
              full_general empty_dir) as [A B].
  split_and!; [exact H1 | exact H2 | |].
  - etrans; [exact (A H1)|]. by compute_done.
  - etrans; [exact (B H2)|]. by compute_done.
Defined.

Lemma add_url_manually_stores_witness :
  let r := add_url_manually (λ _, fav_page) day1 (fetched "<html>") fav_url
             one_favorite one_favorite_dir in
  not_html (fetch_page (fetched "<html>")) = false
  ∧ dict_get fav_url (db_perm one_favorite) = None
  ∧ ∃ x, dict_get fav_url (db_perm r.1) = Some x ∧ url x = fav_url
         ∧ discovered_at x = env_today day1.
Proof.
  destruct (add_url_manually_stores (λ _, fav_page) day1 (fetched "<html>") fav_url
              one_favorite one_favorite_dir eq_refl eq_refl)
    as (x & A & B & C & _).
  split_and!; [reflexivity | reflexivity |].
  exists x. by split_and!.
Defined.

(** A heading without a bold span and without text of its own gives an
    empty title: manual add has no sentinel. *)
Example manual_song_empty_title :
  title (manual_song (py "2026-01-02") fav_url blank_page) = []
  ∧ is_piano (manual_song (py "2026-01-02") fav_url blank_page) = true.
Proof. split; reflexivity. Qed.
